(** * mozapkpublisher: grouping of AABs by package name and the upload
      orchestrator of [push_aab.py]

    The development embeds [mozapkpublisher/push_aab.py]:
    - Python values, exceptions and insertion-ordered dictionaries;
    - [_aabs_by_package_name], the package grouper;
    - [push_aab], the orchestrator, as a writer/error computation over a
      trace of the calls it makes to its collaborators;
    - [main], the command-line entry point.  *)

From Stdlib Require Import String Ascii ZArith Bool Lia Arith.
From Stdlib Require Import List Permutation.
Import ListNotations.
Local Open Scope string_scope.
Local Open Scope list_scope.

(** ** Python values *)

(** The values that flow through [push_aab]: [None], integers and strings.
    On these three shapes Python's [==] is structural equality. *)
Inductive PyVal : Type :=
| PyNone
| PyInt (z : Z)
| PyStr (s : string).

Definition PyVal_eqb (a b : PyVal) : bool :=
  match a, b with
  | PyNone, PyNone => true
  | PyInt x, PyInt y => Z.eqb x y
  | PyStr x, PyStr y => String.eqb x y
  | _, _ => false
  end.

(** Python truthiness, as used by [if kwarg_value]. *)
Definition truthy (v : PyVal) : bool :=
  match v with
  | PyNone => false
  | PyInt z => negb (Z.eqb z 0)
  | PyStr s => negb (String.eqb s "")
  end.

(** [v is None] *)
Definition is_None (v : PyVal) : bool :=
  match v with PyNone => true | _ => false end.

(** ** Exceptions and outcomes *)

Inductive Exn : Type :=
| WrongArgumentGiven (msg : string)
| KeyError (key : PyVal)
| OtherError (name : string).

Inductive Outcome (A : Type) : Type :=
| Returned (a : A)
| Raised (e : Exn).
Arguments Returned {A} a.
Arguments Raised {A} e.

(** ** Insertion-ordered dictionaries *)

Module Dict.
Section WithValues.
Context {V : Type}.

Definition t : Type := list (PyVal * V).

(** [d.get(k)]: the value bound to [k], if any *)
Fixpoint get (k : PyVal) (d : t) : option V :=
match d with
| [] => None
| (k', v) :: rest => if PyVal_eqb k k' then Some v else get k rest
end.

(** [k in d] *)
Definition contains (k : PyVal) (d : t) : bool :=
match get k d with Some _ => true | None => false end.

(** [d[k] = v]: an existing key keeps its position, a new key goes last *)
Fixpoint set (k : PyVal) (v : V) (d : t) : t :=
match d with
| [] => [(k, v)]
| (k', v') :: rest =>
    if PyVal_eqb k k' then (k', v) :: rest else (k', v') :: set k v rest
end.

(** [d[k]], raising [KeyError] on a missing key *)
Definition getitem (k : PyVal) (d : t) : Outcome V :=
match get k d with
| Some v => Returned v
| None => Raised (KeyError k)
end.

Definition keys (d : t) : list PyVal := map fst d.
Definition values (d : t) : list V := map snd d.
End WithValues.
Arguments t V : clear implicits.
End Dict.

(** ** Binaries and their metadata *)

(** An AAB is an opaque file reference; it is named by its path. *)
Definition Aab : Type := string.

(** The metadata of one AAB is a Python dict with string keys. *)
Definition Metadata : Type := Dict.t PyVal.

Definition ExtractedAab : Type := (Aab * Metadata)%type.

(** [metadata['package_name']] when the key is present *)
Definition package_name_of (p : ExtractedAab) : option PyVal :=
  Dict.get (PyStr "package_name") (snd p).

(** ** The package grouper *)

(** The body of the [for] loop of [_aabs_by_package_name], threaded over the
    remaining items with the dictionary built so far. *)
Fixpoint _aabs_by_package_name_loop
    (items : list ExtractedAab)
    (aab_package_names : Dict.t (list ExtractedAab))
  : Outcome (Dict.t (list ExtractedAab)) :=
  match items with
  | [] => Returned aab_package_names
  | (aab, metadata) :: rest =>
      match Dict.getitem (PyStr "package_name") metadata with
      | Raised e => Raised e
      | Returned package_name =>
          let aab_package_names1 :=
            if negb (Dict.contains package_name aab_package_names)
            then Dict.set package_name [] aab_package_names
            else aab_package_names in
          match Dict.getitem package_name aab_package_names1 with
          | Raised e => Raised e
          | Returned group =>
              _aabs_by_package_name_loop rest
                (Dict.set package_name (group ++ [(aab, metadata)])
                          aab_package_names1)
          end
      end
  end.

Definition _aabs_by_package_name (aabs_metadata : list ExtractedAab)
  : Outcome (Dict.t (list ExtractedAab)) :=
  _aabs_by_package_name_loop aabs_metadata [].

(** Concatenation of the groups in key order. *)
Definition flatten (d : Dict.t (list ExtractedAab)) : list ExtractedAab :=
  concat (Dict.values d).

(** ** Collaborators of the orchestrator *)

(** Keyword arguments of a call, in insertion order. *)
Definition Kwargs : Type := list (string * PyVal).

(** The edit yielded by [store.transaction(username, secret, package_name,
    contact_server=..., dry_run=...)] is identified by the arguments the
    transaction was opened with. *)
Record Edit : Type := mkEdit {
  edit_username : string;
  edit_secret : string;
  edit_package_name : PyVal;
  edit_contact_server : bool;
  edit_dry_run : bool
}.

(** A store class ([GooglePlayEdit] in the source) as seen from [push_aab]:
    - [transaction] is what entering the context manager raises, if anything;
    - [update_aab] is what [edit.update_aab(extracted_aabs, **kwargs)] raises;
    - [transaction_exit] is the exception that leaves the [with] statement
      once the context manager has been exited, given what the body raised
      (a commit may fail, an exit handler may swallow or replace a failure). *)
Record Store : Type := mkStore {
  transaction : Edit -> option Exn;
  update_aab : Edit -> list ExtractedAab -> Kwargs -> option Exn;
  transaction_exit : Edit -> option Exn -> option Exn
}.

(** The calls [push_aab] makes, in the order it makes them. *)
Inductive Event : Type :=
| EvLoggingInit
| EvExtract (aabs : list Aab)
| EvEnter (edit : Edit) (failure : option Exn)
| EvUpdateAab (edit : Edit) (extracted_aabs : list ExtractedAab) (kwargs : Kwargs)
| EvExit (edit : Edit) (body_failure : option Exn).

Definition Trace : Type := list Event.

(** ** A writer/error monad for the orchestrator *)

Definition Run (A : Type) : Type := (Trace * Outcome A)%type.

Definition ret {A} (a : A) : Run A := ([], Returned a).
Definition raise {A} (e : Exn) : Run A := ([], Raised e).
Definition emit (ev : Event) : Run unit := ([ev], Returned tt).

Definition bind {A B} (m : Run A) (k : A -> Run B) : Run B :=
  match m with
  | (t1, Raised e) => (t1, Raised e)
  | (t1, Returned a) => let (t2, o) := k a in (t1 ++ t2, o)
  end.

Definition lift {A} (o : Outcome A) : Run A := ([], o).

(** [None] is a normal return, [Some e] raises [e]. *)
Definition raise_if (o : option Exn) : Run unit :=
  match o with
  | None => ret tt
  | Some e => raise e
  end.

Declare Scope run_scope.
Delimit Scope run_scope with run.
Notation "x <- m ;; k" := (bind m (fun x => k))
  (at level 61, m at next level, right associativity) : run_scope.
Notation "m ;; k" := (bind m (fun _ => k))
  (at level 61, right associativity) : run_scope.
Local Open Scope run_scope.

(** [for x in items: body(x)] *)
Fixpoint for_each {A} (items : list A) (body : A -> Run unit) : Run unit :=
  match items with
  | [] => ret tt
  | x :: rest => body x ;; for_each rest body
  end.

Definition dquote : string := String "034"%char EmptyString.

Definition msg_unsupported_store : string :=
  "Only the Google store is currently supported for AAB".

Definition msg_track_required : string :=
  "When " ++ dquote ++ "target_store" ++ dquote ++ " is " ++ dquote ++ "google"
  ++ dquote ++ ", the track must be provided".

(** ** The orchestrator *)

Section Orchestrator.
(** [extract_and_check_aabs_metadata]: the dict it returns, as its items
    in insertion order, or the exception it raises. *)
Variable extract_and_check_aabs_metadata : list Aab -> Outcome (list ExtractedAab).
Variable GooglePlayEdit : Store.

Definition _STORE_PER_TARGET_PLATFORM : Dict.t Store :=
  [(PyStr "google", GooglePlayEdit)].

(** The dict comprehension that builds [update_aab_kwargs]. *)
Definition update_aab_kwargs (track rollout_percentage : PyVal) : Kwargs :=
  filter (fun kwarg => truthy (snd kwarg))
         [("track", track); ("rollout_percentage", rollout_percentage)].

(** [with store.transaction(...) as edit: edit.update_aab(...)] *)
Definition with_transaction (store : Store) (edit : Edit)
    (extracted_aabs : list ExtractedAab) (kwargs : Kwargs) : Run unit :=
  emit (EvEnter edit (transaction store edit)) ;;
  raise_if (transaction store edit) ;;
  emit (EvUpdateAab edit extracted_aabs kwargs) ;;
  emit (EvExit edit (update_aab store edit extracted_aabs kwargs)) ;;
  raise_if (transaction_exit store edit (update_aab store edit extracted_aabs kwargs)).

(** The [for] loop over the groups. *)
Definition push_groups (target_store : PyVal) (username secret : string)
    (kwargs : Kwargs) (dry_run contact_server : bool)
    (aabs_by_package_name : Dict.t (list ExtractedAab)) : Run unit :=
  for_each aabs_by_package_name (fun item =>
    let '(package_name, extracted_aabs) := item in
    store <- lift (Dict.getitem target_store _STORE_PER_TARGET_PLATFORM) ;;
    with_transaction store
      (mkEdit username secret package_name contact_server dry_run)
      extracted_aabs kwargs).

Definition push_aab (aabs : list Aab) (target_store : PyVal)
    (username secret : string) (track rollout_percentage : PyVal)
    (dry_run contact_server : bool) : Run unit :=
  if negb (PyVal_eqb target_store (PyStr "google")) then
    raise (WrongArgumentGiven msg_unsupported_store)
  else if is_None track then
    raise (WrongArgumentGiven msg_track_required)
  else
    emit EvLoggingInit ;;
    emit (EvExtract aabs) ;;
    aabs_metadata_per_paths <- lift (extract_and_check_aabs_metadata aabs) ;;
    aabs_by_package_name <- lift (_aabs_by_package_name aabs_metadata_per_paths) ;;
    push_groups target_store username secret
      (update_aab_kwargs track rollout_percentage)
      dry_run contact_server aabs_by_package_name.

(** *** The command line *)

(** The namespace returned by [parser.parse_args()]. *)
Record Config : Type := mkConfig {
  config_aabs : list Aab;
  config_target_store : PyVal;
  config_username : string;
  config_secret : string;
  config_track : PyVal;
  config_rollout_percentage : PyVal;
  config_dry_run : bool;
  config_contact_server : bool
}.

(** What [parser.parse_args()] does with the command line: it returns a
    namespace, reports a usage error through [parser.error], or prints the
    help text and exits. *)
Inductive ParseResult : Type :=
| Parsed (config : Config)
| UsageError (message : string)
| HelpPrinted.

Variable parse_args : list string -> ParseResult.

(** How the process ends. *)
Inductive ProcessEnd : Type :=
| NormalReturn
| SystemExit (status : Z) (message : string)
| UncaughtException (e : Exn).

(** [argparse]'s [parser.error(message)]: usage and message on stderr,
    exit status 2. *)
Definition parser_error (message : string) : ProcessEnd :=
  SystemExit 2 message.

Definition exit_status (p : ProcessEnd) : Z :=
  match p with
  | NormalReturn => 0
  | SystemExit status _ => status
  | UncaughtException _ => 1
  end.

(** The call [main] makes to [push_aab]: track and rollout percentage are
    read from the namespace only under the [google] subcommand. *)
Definition main_push_aab (config : Config) : Run unit :=
  let '(track, rollout_percentage) :=
    if PyVal_eqb (config_target_store config) (PyStr "google")
    then (config_track config, config_rollout_percentage config)
    else (PyNone, PyNone) in
  push_aab (config_aabs config) (config_target_store config)
           (config_username config) (config_secret config)
           track rollout_percentage
           (config_dry_run config) (config_contact_server config).

Definition main (argv : list string) : Trace * ProcessEnd :=
  match parse_args argv with
  | UsageError message => ([], parser_error message)
  | HelpPrinted => ([], SystemExit 0 "")
  | Parsed config =>
      match main_push_aab config with
      | (t, Returned _) => (t, NormalReturn)
      | (t, Raised (WrongArgumentGiven message)) => (t, parser_error message)
      | (t, Raised e) => (t, UncaughtException e)
      end
  end.
End Orchestrator.

(** ** Sample inputs *)
Definition md (pkg : string) (version_code : Z) : Metadata :=
  [(PyStr "version_code", PyInt version_code); (PyStr "package_name", PyStr pkg)].

Definition sample_items : list ExtractedAab :=
  [("a1.aab", md "com.app.a" 1); ("a2.aab", md "com.app.a" 2);
   ("b1.aab", md "com.app.b" 1)].

Definition sample_aabs : list Aab := ["a1.aab"; "a2.aab"; "b1.aab"].

Definition sample_extract (aabs : list Aab) : Outcome (list ExtractedAab) :=
  Returned sample_items.

(** A store on which every call succeeds. *)
Definition ok_store : Store :=
  mkStore (fun _ => None) (fun _ _ _ => None) (fun _ body_failure => body_failure).

(** A store whose [update_aab] fails for one package and which lets that
    failure leave the [with] statement. *)
Definition failing_store (bad_package : PyVal) : Store :=
  mkStore (fun _ => None)
          (fun edit _ _ =>
             if PyVal_eqb (edit_package_name edit) bad_package
             then Some (OtherError "RemoteError") else None)
          (fun _ body_failure => body_failure).

Definition failing_extract (aabs : list Aab) : Outcome (list ExtractedAab) :=
  Raised (OtherError "BadApk").

(** ** Observations *)

(** Does the pair carry package name [k]? *)
Definition has_package_name (k : PyVal) (p : ExtractedAab) : bool :=
  match package_name_of p with
  | Some k' => PyVal_eqb k k'
  | None => false
  end.

(** The package names carried by the pairs, in input order. *)
Definition package_names (l : list ExtractedAab) : list PyVal :=
  flat_map (fun p => match package_name_of p with
                     | Some k => [k]
                     | None => []
                     end) l.

(** Position of the first pair carrying package name [k]. *)
Fixpoint first_index (k : PyVal) (l : list ExtractedAab) : option nat :=
  match l with
  | [] => None
  | p :: rest =>
      if has_package_name k p then Some 0%nat
      else option_map S (first_index k rest)
  end.

Definition mem (k : PyVal) (ks : list PyVal) : bool :=
  existsb (PyVal_eqb k) ks.

(** The distinct names of a sequence, each at the place of its first
    occurrence. *)
Definition first_seen (names : list PyVal) : list PyVal :=
  fold_left (fun seen n => if mem n seen then seen else seen ++ [n]) names [].

(** A dictionary given by its keys and a function of the key. *)
Definition tabulate {V} (f : PyVal -> V) (ks : list PyVal) : Dict.t V :=
  map (fun k => (k, f k)) ks.

(** The grouping in closed form: the first-seen names, each bound to the
    pairs that carry it. *)
Definition grouped (l : list ExtractedAab) : Dict.t (list ExtractedAab) :=
  tabulate (fun k => filter (has_package_name k) l) (first_seen (package_names l)).

(** The transactions a run tried to enter, in order. *)
Definition entered (t : Trace) : list Edit :=
  flat_map (fun ev => match ev with EvEnter e _ => [e] | _ => [] end) t.

(** The [update_aab] calls of a run, in order. *)
Definition updates (t : Trace) : list (Edit * list ExtractedAab * Kwargs) :=
  flat_map (fun ev => match ev with
                      | EvUpdateAab e xs kw => [(e, xs, kw)]
                      | _ => []
                      end) t.

Definition Edit_eqb (a b : Edit) : bool :=
  String.eqb (edit_username a) (edit_username b)
  && String.eqb (edit_secret a) (edit_secret b)
  && PyVal_eqb (edit_package_name a) (edit_package_name b)
  && Bool.eqb (edit_contact_server a) (edit_contact_server b)
  && Bool.eqb (edit_dry_run a) (edit_dry_run b).

(** The transactions that are open once an event has happened: a
    successful enter opens one, an exit closes it. *)
Definition step_open (opened : list Edit) (ev : Event) : list Edit :=
  match ev with
  | EvEnter e None => e :: opened
  | EvExit e _ => filter (fun e' => negb (Edit_eqb e e')) opened
  | _ => opened
  end.

Definition open_after (t : Trace) : list Edit := fold_left step_open t [].

(** The events of one group whose transaction opens: enter, update, exit. *)
Definition group_events (st : Store) (username secret : string)
    (kwargs : Kwargs) (dry_run contact_server : bool)
    (item : PyVal * list ExtractedAab) : Trace :=
  let e := mkEdit username secret (fst item) contact_server dry_run in
  [EvEnter e None; EvUpdateAab e (snd item) kwargs;
   EvExit e (update_aab st e (snd item) kwargs)].

(** A group succeeds when its transaction opens, its update returns and
    its transaction closes without raising. *)
Definition group_succeeds (st : Store) (username secret : string)
    (kwargs : Kwargs) (dry_run contact_server : bool)
    (item : PyVal * list ExtractedAab) : Prop :=
  let e := mkEdit username secret (fst item) contact_server dry_run in
  transaction st e = None /\
  update_aab st e (snd item) kwargs = None /\
  transaction_exit st e None = None.

(** Value of a keyword argument, if it is passed. *)
Fixpoint kwarg (name : string) (kwargs : Kwargs) : option PyVal :=
  match kwargs with
  | [] => None
  | (n, v) :: rest => if String.eqb name n then Some v else kwarg name rest
  end.


(** A command line for the sample run. *)
Definition sample_config (track rollout_percentage : PyVal) : Config :=
  mkConfig sample_aabs (PyStr "google") "user" "secret.json"
           track rollout_percentage true false.

Definition sample_parse_args (argv : list string) : ParseResult :=
  match argv with
  | ["script"; "--username"; "user"; "--secret"; "secret.json"; "google"; track;
     "a1.aab"; "a2.aab"; "b1.aab"] => Parsed (sample_config (PyStr track) PyNone)
  | ["script"; "--help"] => HelpPrinted
  | _ => UsageError "the following arguments are required: --username, --secret"
  end.

(** ** Further observations and sample inputs *)

(** The calls to [main_logging.init], counted. *)
Definition logging_inits (t : Trace) : nat :=
  length (filter (fun ev => match ev with EvLoggingInit => true | _ => false end) t).

(** The calls to the metadata extractor, in order. *)
Definition extractions (t : Trace) : list (list Aab) :=
  flat_map (fun ev => match ev with EvExtract aabs => [aabs] | _ => [] end) t.

(** The transactions a run left, in order. *)
Definition exited (t : Trace) : list Edit :=
  flat_map (fun ev => match ev with EvExit e _ => [e] | _ => [] end) t.

(** Have both guards of [push_aab] been passed? *)
Definition guards_passed (target_store track : PyVal) : bool :=
  PyVal_eqb target_store (PyStr "google") && negb (is_None track).

(** Metadata without a [package_name]. *)
Definition md_unnamed (version_code : Z) : Metadata :=
  [(PyStr "version_code", PyInt version_code)].

Definition unnamed_items : list ExtractedAab :=
  [("a1.aab", md "com.app.a" 1); ("x.aab", md_unnamed 7);
   ("b1.aab", md "com.app.b" 1)].

Definition unnamed_extract (aabs : list Aab) : Outcome (list ExtractedAab) :=
  Returned unnamed_items.

Definition empty_extract (aabs : list Aab) : Outcome (list ExtractedAab) :=
  Returned [].

(** * Properties *)

(** ** Python values and dictionaries *)

Lemma PyVal_eqb_eq (a b : PyVal) : PyVal_eqb a b = true <-> a = b.
Proof.
  destruct a, b; simpl; split; intros H; try discriminate; try reflexivity.
  - apply Z.eqb_eq in H. now subst.
  - injection H as ->. apply Z.eqb_refl.
  - apply String.eqb_eq in H. now subst.
  - injection H as ->. apply String.eqb_refl.
Qed.

Lemma PyVal_eqb_refl (a : PyVal) : PyVal_eqb a a = true.
Proof. now apply PyVal_eqb_eq. Qed.

Lemma PyVal_eqb_neq (a b : PyVal) : PyVal_eqb a b = false <-> a <> b.
Proof.
  split.
  - intros H Heq. apply PyVal_eqb_eq in Heq. congruence.
  - intros H. destruct (PyVal_eqb a b) eqn:E; [|reflexivity].
    apply PyVal_eqb_eq in E. contradiction.
Qed.

Lemma mem_In (k : PyVal) (ks : list PyVal) : mem k ks = true <-> In k ks.
Proof.
  unfold mem. rewrite existsb_exists. split.
  - intros [x [Hin Heq]]. apply PyVal_eqb_eq in Heq. now subst.
  - intros Hin. exists k. split; [assumption | apply PyVal_eqb_refl].
Qed.

Lemma mem_not_In (k : PyVal) (ks : list PyVal) : mem k ks = false <-> ~ In k ks.
Proof.
  rewrite <- mem_In. destruct (mem k ks); split; congruence.
Qed.

Section TabulateFacts.
Context {V : Type}.
Implicit Types (f g : PyVal -> V) (ks : list PyVal).

Lemma keys_tabulate f ks : Dict.keys (tabulate f ks) = ks.
Proof.
  unfold Dict.keys, tabulate. rewrite map_map. simpl. apply map_id.
Qed.

Lemma values_tabulate f ks : Dict.values (tabulate f ks) = map f ks.
Proof.
  unfold Dict.values, tabulate. rewrite map_map. reflexivity.
Qed.

Lemma tabulate_app f ks1 ks2 :
  tabulate f (ks1 ++ ks2) = tabulate f ks1 ++ tabulate f ks2.
Proof. apply map_app. Qed.

Lemma tabulate_ext f g ks :
  (forall k, In k ks -> f k = g k) -> tabulate f ks = tabulate g ks.
Proof.
  intros H. apply map_ext_in. intros k Hk. now rewrite H.
Qed.

Lemma get_tabulate f ks k :
  Dict.get k (tabulate f ks) = if mem k ks then Some (f k) else None.
Proof.
  induction ks as [|k' ks IH]; simpl; [reflexivity|].
  destruct (PyVal_eqb k k') eqn:E; simpl.
  - apply PyVal_eqb_eq in E. now subst.
  - exact IH.
Qed.

Lemma set_tabulate_absent f ks k v :
  mem k ks = false ->
  Dict.set k v (tabulate f ks) = tabulate f ks ++ [(k, v)].
Proof.
  induction ks as [|k' ks IH]; simpl; intros H; [reflexivity|].
  apply orb_false_elim in H as [H1 H2].
  rewrite H1. f_equal. now apply IH.
Qed.

Lemma set_tabulate_present f g ks k v :
  NoDup ks -> In k ks -> g k = v ->
  (forall k', In k' ks -> k' <> k -> g k' = f k') ->
  Dict.set k v (tabulate f ks) = tabulate g ks.
Proof.
  induction ks as [|k0 ks IH]; simpl; intros Hnd Hin Hv Hother; [contradiction|].
  inversion Hnd as [|? ? Hnotin Hnd']; subst.
  destruct (PyVal_eqb k k0) eqn:E.
  - apply PyVal_eqb_eq in E. subst k0. f_equal.
    apply tabulate_ext. intros k' Hk'. symmetry. apply Hother.
    + now right.
    + intros ->. contradiction.
  - apply PyVal_eqb_neq in E.
    destruct Hin as [Hin|Hin]; [congruence|].
    rewrite (Hother k0) by (auto; congruence).
    f_equal. apply IH; auto.
Qed.
End TabulateFacts.

(** ** First-seen names *)

Lemma first_seen_snoc (ns : list PyVal) (n : PyVal) :
  first_seen (ns ++ [n]) =
  if mem n (first_seen ns) then first_seen ns else first_seen ns ++ [n].
Proof.
  unfold first_seen. rewrite fold_left_app. reflexivity.
Qed.

Lemma first_seen_In (ns : list PyVal) (k : PyVal) :
  In k (first_seen ns) <-> In k ns.
Proof.
  induction ns as [|n ns IH] using rev_ind; [simpl; tauto|].
  rewrite first_seen_snoc, in_app_iff. simpl.
  destruct (mem n (first_seen ns)) eqn:E.
  - apply mem_In in E. rewrite IH in *. intuition (subst; auto).
  - rewrite in_app_iff. simpl. rewrite IH. tauto.
Qed.

Lemma first_seen_NoDup (ns : list PyVal) : NoDup (first_seen ns).
Proof.
  induction ns as [|n ns IH] using rev_ind; [constructor|].
  rewrite first_seen_snoc.
  destruct (mem n (first_seen ns)) eqn:E; [assumption|].
  apply mem_not_In in E.
  apply NoDup_rev in IH.
  rewrite <- (rev_involutive (first_seen ns ++ [n])).
  apply NoDup_rev. rewrite rev_app_distr. simpl.
  constructor; [|assumption].
  now rewrite <- in_rev.
Qed.

(** ** The package grouper *)

Lemma has_package_name_iff (k : PyVal) (p : ExtractedAab) :
  has_package_name k p = true <-> package_name_of p = Some k.
Proof.
  unfold has_package_name. destruct (package_name_of p) as [k'|].
  - rewrite PyVal_eqb_eq. split; congruence.
  - split; discriminate.
Qed.

Lemma package_names_app (l1 l2 : list ExtractedAab) :
  package_names (l1 ++ l2) = package_names l1 ++ package_names l2.
Proof. apply flat_map_app. Qed.

Lemma package_names_In (l : list ExtractedAab) (k : PyVal) :
  In k (package_names l) <-> exists p, In p l /\ package_name_of p = Some k.
Proof.
  unfold package_names. rewrite in_flat_map. split.
  - intros [p [Hp Hk]]. exists p. split; [assumption|].
    destruct (package_name_of p); simpl in Hk; [|contradiction].
    destruct Hk as [->|[]]. reflexivity.
  - intros [p [Hp Hk]]. exists p. split; [assumption|].
    rewrite Hk. now left.
Qed.

Lemma filter_absent_name (l : list ExtractedAab) (k : PyVal) :
  ~ In k (package_names l) -> filter (has_package_name k) l = [].
Proof.
  intros H. induction l as [|p l IH]; [reflexivity|]. simpl.
  destruct (has_package_name k p) eqn:E.
  - exfalso. apply H. apply package_names_In. exists p. split; [now left|].
    now apply has_package_name_iff.
  - apply IH. intros Hin. apply H.
    change (p :: l) with ([p] ++ l). rewrite package_names_app, in_app_iff. now right.
Qed.

Lemma loop_app (l1 l2 : list ExtractedAab) (d : Dict.t (list ExtractedAab)) :
  _aabs_by_package_name_loop (l1 ++ l2) d =
  match _aabs_by_package_name_loop l1 d with
  | Returned d' => _aabs_by_package_name_loop l2 d'
  | Raised e => Raised e
  end.
Proof.
  revert d. induction l1 as [|[aab metadata] l1 IH]; intros d; simpl; [reflexivity|].
  destruct (Dict.getitem (PyStr "package_name") metadata) as [pn|e]; [|reflexivity].
  match goal with |- context [Dict.getitem pn ?d1] =>
    destruct (Dict.getitem pn d1) as [group|e] end; [|reflexivity].
  apply IH.
Qed.

(** One turn of the loop. *)
Lemma loop_single (p : ExtractedAab) (k : PyVal) (d : Dict.t (list ExtractedAab)) :
  package_name_of p = Some k ->
  _aabs_by_package_name_loop [p] d =
  let d1 := if negb (Dict.contains k d) then Dict.set k [] d else d in
  match Dict.get k d1 with
  | Some group => Returned (Dict.set k (group ++ [p]) d1)
  | None => Raised (KeyError k)
  end.
Proof.
  destruct p as [aab metadata]. unfold package_name_of. simpl. intros Hk.
  unfold Dict.getitem. rewrite Hk.
  destruct (Dict.get k _); reflexivity.
Qed.

(** One more pair after a grouped prefix. *)
Lemma grouped_snoc (l : list ExtractedAab) (p : ExtractedAab) (k : PyVal) :
  package_name_of p = Some k ->
  _aabs_by_package_name_loop [p] (grouped l) = Returned (grouped (l ++ [p])).
Proof.
  intros Hk. rewrite (loop_single p k _ Hk). cbv zeta.
  assert (Hnames : package_names (l ++ [p]) = package_names l ++ [k]).
  { rewrite package_names_app. simpl. now rewrite Hk. }
  assert (Hp : has_package_name k p = true).
  { apply has_package_name_iff. exact Hk. }
  assert (Hget0 : Dict.get k (grouped l) =
                  if mem k (first_seen (package_names l))
                  then Some (filter (has_package_name k) l) else None).
  { unfold grouped. apply (get_tabulate (fun k0 => filter (has_package_name k0) l)). }
  assert (Hrhs : grouped (l ++ [p]) =
                 tabulate (fun k0 => filter (has_package_name k0) (l ++ [p]))
                          (if mem k (first_seen (package_names l))
                           then first_seen (package_names l)
                           else first_seen (package_names l) ++ [k])).
  { unfold grouped. now rewrite Hnames, first_seen_snoc. }
  rewrite Hrhs. clear Hrhs.
  unfold Dict.contains. rewrite Hget0.
  destruct (mem k (first_seen (package_names l))) eqn:E; simpl.
  - (* the name has been seen: its group grows in place *)
    rewrite Hget0. f_equal.
    apply set_tabulate_present.
    + apply first_seen_NoDup.
    + now apply mem_In.
    + rewrite filter_app. simpl. now rewrite Hp.
    + intros k' _ Hneq. rewrite filter_app. simpl.
      destruct (has_package_name k' p) eqn:E'.
      * apply has_package_name_iff in E'.
        congruence.
      * now rewrite app_nil_r.
  - (* a new name: a new group at the end *)
    unfold grouped. rewrite set_tabulate_absent by assumption.
    assert (Hget : forall (d : Dict.t (list ExtractedAab)) w,
               Dict.get k d = None -> Dict.get k (d ++ [(k, w)]) = Some w).
    { intros d w. induction d as [|[k0 v0] d IH]; simpl; intros Hd.
      - now rewrite PyVal_eqb_refl.
      - destruct (PyVal_eqb k k0); [discriminate|]. now apply IH. }
    assert (Hset : forall (d : Dict.t (list ExtractedAab)) v w,
               Dict.get k d = None -> Dict.set k v (d ++ [(k, w)]) = d ++ [(k, v)]).
    { intros d v w. induction d as [|[k0 v0] d IH]; simpl; intros Hd.
      - now rewrite PyVal_eqb_refl.
      - destruct (PyVal_eqb k k0); [discriminate|]. f_equal. now apply IH. }
    rewrite Hget by (rewrite get_tabulate, E; reflexivity).
    rewrite Hset by (rewrite get_tabulate, E; reflexivity).
    f_equal. rewrite tabulate_app. simpl.
    apply mem_not_In in E. rewrite first_seen_In in E.
    f_equal.
    + apply tabulate_ext. intros k' Hk'. rewrite filter_app. simpl.
      destruct (has_package_name k' p) eqn:E'.
      * apply has_package_name_iff in E'.
        rewrite first_seen_In in Hk'. congruence.
      * now rewrite app_nil_r.
    + rewrite filter_app. simpl. rewrite Hp.
      now rewrite (filter_absent_name l k E).
Qed.

(** On pairs that all carry a package name, the grouper returns the
    grouping in closed form. *)
Lemma group_closed_form (l : list ExtractedAab) :
  Forall (fun p => package_name_of p <> None) l ->
  _aabs_by_package_name l = Returned (grouped l).
Proof.
  induction l as [|p l IH] using rev_ind; intros H; [reflexivity|].
  apply Forall_app in H as [Hl Hp].
  inversion Hp as [|? ? Hp' _]; subst.
  destruct (package_name_of p) as [k|] eqn:Hk; [|congruence].
  unfold _aabs_by_package_name in *. rewrite loop_app, (IH Hl).
  now apply grouped_snoc with (k := k).
Qed.

(** *** First-seen order, by positions *)

Lemma first_index_snoc (k : PyVal) (l : list ExtractedAab) (p : ExtractedAab) :
  first_index k (l ++ [p]) =
  match first_index k l with
  | Some a => Some a
  | None => if has_package_name k p then Some (length l) else None
  end.
Proof.
  induction l as [|q l IH]; simpl.
  - destruct (has_package_name k p); reflexivity.
  - destruct (has_package_name k q); [reflexivity|].
    rewrite IH. destruct (first_index k l); simpl; [reflexivity|].
    destruct (has_package_name k p); reflexivity.
Qed.

Lemma first_index_bound (k : PyVal) (l : list ExtractedAab) (a : nat) :
  first_index k l = Some a -> (a < length l)%nat.
Proof.
  revert a. induction l as [|q l IH]; simpl; intros a H; [discriminate|].
  destruct (has_package_name k q).
  - injection H as <-. lia.
  - destruct (first_index k l) as [a'|]; simpl in H; [|discriminate].
    injection H as <-. specialize (IH a' eq_refl). lia.
Qed.

Lemma first_index_None (k : PyVal) (l : list ExtractedAab) :
  first_index k l = None <-> ~ In k (package_names l).
Proof.
  induction l as [|q l IH]; simpl; [tauto|].
  rewrite in_app_iff.
  destruct (has_package_name k q) eqn:E.
  - apply has_package_name_iff in E. rewrite E. simpl.
    split; [discriminate | intros H; exfalso; apply H; auto].
  - destruct (first_index k l) as [a|]; simpl.
    + split; [discriminate|]. intros H. exfalso. apply H. right.
      destruct IH as [_ IH].
      destruct (mem k (package_names l)) eqn:M; [now apply mem_In|].
      apply mem_not_In in M. now discriminate (IH M).
    + split; [|reflexivity]. intros _ [H|H].
      * destruct (package_name_of q) as [k'|] eqn:Q; simpl in H; [|contradiction].
        destruct H as [->|[]].
        assert (has_package_name k q = true) by now apply has_package_name_iff.
        congruence.
      * now apply (proj1 IH).
Qed.

Lemma first_seen_order (l : list ExtractedAab) (i j : nat) (ki kj : PyVal) :
  (i < j)%nat ->
  nth_error (first_seen (package_names l)) i = Some ki ->
  nth_error (first_seen (package_names l)) j = Some kj ->
  exists a b, first_index ki l = Some a /\ first_index kj l = Some b /\ (a < b)%nat.
Proof.
  revert i j ki kj. induction l as [|p l IH] using rev_ind; intros i j ki kj Hij Hi Hj.
  - destruct i; discriminate.
  - rewrite package_names_app in Hi, Hj. simpl in Hi, Hj.
    assert (Hold : forall i j ki kj, (i < j)%nat ->
               nth_error (first_seen (package_names l)) i = Some ki ->
               nth_error (first_seen (package_names l)) j = Some kj ->
               exists a b, first_index ki (l ++ [p]) = Some a /\
                           first_index kj (l ++ [p]) = Some b /\ (a < b)%nat).
    { intros i' j' ki' kj' Hij' Hi' Hj'.
      destruct (IH _ _ _ _ Hij' Hi' Hj') as [a [b [Ha [Hb Hab]]]].
      exists a, b. rewrite !first_index_snoc, Ha, Hb. auto. }
    destruct (package_name_of p) as [k|] eqn:Hp; simpl in Hi, Hj.
    + rewrite first_seen_snoc in Hi, Hj.
      destruct (mem k (first_seen (package_names l))) eqn:E; [eauto|].
      apply mem_not_In in E. rewrite first_seen_In in E.
      destruct (Nat.lt_ge_cases j (length (first_seen (package_names l)))) as [Hlt|Hge].
      * rewrite nth_error_app1 in Hi, Hj by lia. eauto.
      * rewrite nth_error_app2 in Hj by lia.
        destruct (j - length (first_seen (package_names l)))%nat as [|n] eqn:Hn;
          [|destruct n; discriminate].
        simpl in Hj. injection Hj as <-.
        assert (Hi' : nth_error (first_seen (package_names l)) i = Some ki).
        { rewrite nth_error_app1 in Hi by lia. exact Hi. }
        assert (Hin : In ki (package_names l)).
        { apply first_seen_In. eapply nth_error_In; eauto. }
        destruct (first_index ki l) as [a|] eqn:Ha;
          [|apply first_index_None in Ha; contradiction].
        exists a, (length l). rewrite !first_index_snoc, Ha.
        apply first_index_None in E. rewrite E.
        assert (has_package_name k p = true) as -> by now apply has_package_name_iff.
        split; [reflexivity|]. split; [reflexivity|].
        now apply first_index_bound with (k := ki).
    + rewrite app_nil_r in Hi, Hj. eauto.
Qed.

(** *** The groups partition the input *)

Lemma flat_map_filter_skip (x : ExtractedAab) (l : list ExtractedAab) (ks : list PyVal) :
  (forall k, In k ks -> has_package_name k x = false) ->
  flat_map (fun k => filter (has_package_name k) (x :: l)) ks =
  flat_map (fun k => filter (has_package_name k) l) ks.
Proof.
  intros H. induction ks as [|k ks IH]; simpl; [reflexivity|].
  rewrite (H k) by now left. f_equal. apply IH. intros k' Hk'. apply H. now right.
Qed.

Lemma groups_insert (x : ExtractedAab) (k : PyVal) (l : list ExtractedAab) (ks : list PyVal) :
  package_name_of x = Some k -> NoDup ks -> In k ks ->
  Permutation (flat_map (fun k => filter (has_package_name k) (x :: l)) ks)
              (x :: flat_map (fun k => filter (has_package_name k) l) ks).
Proof.
  intros Hx. induction ks as [|k0 ks IH]; intros Hnd Hin; [contradiction|].
  inversion Hnd as [|? ? Hnotin Hnd']; subst.
  change (Permutation
            ((if has_package_name k0 x
              then x :: filter (has_package_name k0) l
              else filter (has_package_name k0) l)
             ++ flat_map (fun k => filter (has_package_name k) (x :: l)) ks)
            (x :: filter (has_package_name k0) l
               ++ flat_map (fun k => filter (has_package_name k) l) ks)).
  destruct (has_package_name k0 x) eqn:E.
  - apply has_package_name_iff in E.
    assert (k0 = k) by congruence. subst k0.
    rewrite flat_map_filter_skip; [reflexivity|].
    intros k' Hk'. destruct (has_package_name k' x) eqn:E'; [|reflexivity].
    apply has_package_name_iff in E'. assert (k' = k) by congruence. subst.
    contradiction.
  - destruct Hin as [->|Hin].
    + apply has_package_name_iff in Hx. congruence.
    + rewrite (IH Hnd' Hin). apply Permutation_sym, Permutation_middle.
Qed.

Lemma groups_partition (l : list ExtractedAab) (ks : list PyVal) :
  NoDup ks ->
  (forall p, In p l -> exists k, package_name_of p = Some k /\ In k ks) ->
  Permutation (flat_map (fun k => filter (has_package_name k) l) ks) l.
Proof.
  intros Hnd. induction l as [|x l IH]; intros Hcov.
  - clear Hnd Hcov. induction ks as [|k ks IHk]; simpl; [constructor | exact IHk].
  - destruct (Hcov x (or_introl eq_refl)) as [k [Hk Hin]].
    rewrite (groups_insert x k l ks Hk Hnd Hin).
    constructor. apply IH. intros p Hp. apply Hcov. now right.
Qed.

Lemma flatten_grouped (l : list ExtractedAab) :
  flatten (grouped l) =
  flat_map (fun k => filter (has_package_name k) l) (first_seen (package_names l)).
Proof.
  unfold flatten, grouped. rewrite values_tabulate. symmetry. apply flat_map_concat_map.
Qed.

(** *** Re-grouping the flattened groups *)

Lemma loop_returns_named (l : list ExtractedAab) (d d' : Dict.t (list ExtractedAab)) :
  _aabs_by_package_name_loop l d = Returned d' ->
  Forall (fun p => package_name_of p <> None) l.
Proof.
  revert d. induction l as [|[aab metadata] l IH]; intros d H; [constructor|].
  simpl in H. unfold Dict.getitem in H at 1.
  destruct (Dict.get (PyStr "package_name") metadata) as [k|] eqn:Hk; [|discriminate].
  constructor.
  - unfold package_name_of. simpl. congruence.
  - match type of H with context [Dict.getitem k ?d1] =>
      destruct (Dict.getitem k d1) as [group|e] end; [|discriminate].
    eapply IH. exact H.
Qed.

Lemma filter_flat_map {A B} (f : B -> bool) (g : A -> list B) (l : list A) :
  filter f (flat_map g l) = flat_map (fun a => filter f (g a)) l.
Proof.
  induction l as [|a l IH]; simpl; [reflexivity|].
  now rewrite filter_app, IH.
Qed.

Lemma filter_other_name (k k' : PyVal) (l : list ExtractedAab) :
  k <> k' -> filter (has_package_name k) (filter (has_package_name k') l) = [].
Proof.
  intros Hneq. induction l as [|p l IH]; simpl; [reflexivity|].
  destruct (has_package_name k' p) eqn:E'; [|exact IH]. simpl.
  destruct (has_package_name k p) eqn:E; [|exact IH].
  apply has_package_name_iff in E, E'. congruence.
Qed.

Lemma filter_same_name (k : PyVal) (l : list ExtractedAab) :
  filter (has_package_name k) (filter (has_package_name k) l) =
  filter (has_package_name k) l.
Proof.
  induction l as [|p l IH]; simpl; [reflexivity|].
  destruct (has_package_name k p) eqn:E; [|exact IH].
  simpl. rewrite E. now f_equal.
Qed.

Lemma filter_groups (k : PyVal) (l : list ExtractedAab) (ks : list PyVal) :
  NoDup ks ->
  filter (has_package_name k)
         (flat_map (fun k' => filter (has_package_name k') l) ks) =
  if mem k ks then filter (has_package_name k) l else [].
Proof.
  rewrite filter_flat_map.
  induction ks as [|k0 ks IH]; intros Hnd; [reflexivity|].
  inversion Hnd as [|? ? Hnotin Hnd']; subst.
  cbn [flat_map mem existsb]. fold (mem k ks). rewrite (IH Hnd').
  destruct (PyVal_eqb k k0) eqn:E; simpl.
  - apply PyVal_eqb_eq in E. subst k0.
    apply mem_not_In in Hnotin. rewrite Hnotin, app_nil_r.
    apply filter_same_name.
  - apply PyVal_eqb_neq in E. now rewrite filter_other_name.
Qed.

Lemma package_names_group (k : PyVal) (l : list ExtractedAab) :
  package_names (filter (has_package_name k) l) =
  repeat k (length (filter (has_package_name k) l)).
Proof.
  induction l as [|p l IH]; simpl; [reflexivity|].
  destruct (has_package_name k p) eqn:E; [|exact IH].
  apply has_package_name_iff in E. simpl. rewrite E. simpl. now f_equal.
Qed.

Lemma group_nonempty (k : PyVal) (l : list ExtractedAab) :
  In k (package_names l) -> (0 < length (filter (has_package_name k) l))%nat.
Proof.
  intros H. apply package_names_In in H as [p [Hp Hk]].
  assert (Hin : In p (filter (has_package_name k) l)).
  { apply filter_In. split; [assumption|]. now apply has_package_name_iff. }
  destruct (filter (has_package_name k) l); [contradiction | simpl; lia].
Qed.

Lemma first_seen_app (a b : list PyVal) :
  first_seen (a ++ b) =
  fold_left (fun seen n => if mem n seen then seen else seen ++ [n]) b (first_seen a).
Proof. unfold first_seen. apply fold_left_app. Qed.

Lemma first_seen_repeat_seen (k : PyVal) (n : nat) (seen : list PyVal) :
  mem k seen = true ->
  fold_left (fun seen n => if mem n seen then seen else seen ++ [n]) (repeat k n) seen
  = seen.
Proof.
  intros H. induction n as [|n IH]; simpl; [reflexivity|]. now rewrite H.
Qed.

Lemma first_seen_groups (l : list ExtractedAab) (ks : list PyVal) :
  NoDup ks -> (forall k, In k ks -> In k (package_names l)) ->
  first_seen (package_names
                (flat_map (fun k => filter (has_package_name k) l) ks)) = ks.
Proof.
  induction ks as [|k ks IH] using rev_ind; intros Hnd Hin; [reflexivity|].
  assert (Hnd' : NoDup ks /\ ~ In k ks).
  { apply NoDup_rev in Hnd. rewrite rev_app_distr in Hnd. simpl in Hnd.
    inversion Hnd as [|? ? Hnotin Hnd']; subst. split.
    - rewrite <- (rev_involutive ks). now apply NoDup_rev.
    - now rewrite in_rev. }
  destruct Hnd' as [Hnd' Hnotin].
  rewrite flat_map_app, package_names_app, first_seen_app.
  rewrite IH by (auto; intros; apply Hin; apply in_or_app; auto).
  cbn [flat_map]. rewrite app_nil_r, package_names_group.
  assert (Hpos : (0 < length (filter (has_package_name k) l))%nat).
  { apply group_nonempty, Hin, in_or_app. right. now left. }
  destruct (length (filter (has_package_name k) l)) as [|n]; [lia|].
  cbn [repeat fold_left].
  apply mem_not_In in Hnotin. rewrite Hnotin.
  apply first_seen_repeat_seen.
  apply mem_In. apply in_or_app. right. now left.
Qed.

Lemma grouped_flatten (l : list ExtractedAab) :
  grouped (flatten (grouped l)) = grouped l.
Proof.
  rewrite flatten_grouped. unfold grouped at 1.
  rewrite first_seen_groups.
  - unfold grouped. apply tabulate_ext. intros k Hk.
    rewrite filter_groups by apply first_seen_NoDup.
    apply mem_In in Hk. now rewrite Hk.
  - apply first_seen_NoDup.
  - intros k. apply first_seen_In.
Qed.

Lemma flatten_named (l : list ExtractedAab) :
  Forall (fun p => package_name_of p <> None) (flatten (grouped l)).
Proof.
  rewrite flatten_grouped. apply Forall_forall. intros p Hp.
  apply in_flat_map in Hp as [k [_ Hp]].
  apply filter_In in Hp as [_ Hp]. apply has_package_name_iff in Hp. congruence.
Qed.

(** ** The orchestrator *)

Lemma Edit_eqb_refl (e : Edit) : Edit_eqb e e = true.
Proof.
  unfold Edit_eqb.
  now rewrite !String.eqb_refl, PyVal_eqb_refl, !Bool.eqb_reflx.
Qed.

Lemma for_each_app {A} (l1 l2 : list A) (body : A -> Run unit) :
  for_each (l1 ++ l2) body = (for_each l1 body ;; for_each l2 body).
Proof.
  induction l1 as [|x l1 IH]; simpl.
  - unfold bind, ret. destruct (for_each l2 body) as [t o]. reflexivity.
  - rewrite IH. unfold bind.
    destruct (body x) as [t1 [[]|e]]; [|reflexivity].
    destruct (for_each l1 body) as [t2 [[]|e]].
    + destruct (for_each l2 body) as [t3 o]. now rewrite app_assoc.
    + reflexivity.
Qed.

Section OrchestratorFacts.
Variable extract : list Aab -> Outcome (list ExtractedAab).
Variable st : Store.
Variables (username secret : string) (kwargs : Kwargs) (dry_run contact_server : bool).

Let edit_of (package_name : PyVal) : Edit :=
  mkEdit username secret package_name contact_server dry_run.
Let run_groups := push_groups st (PyStr "google") username secret kwargs
                              dry_run contact_server.
Let events_of := group_events st username secret kwargs dry_run contact_server.
Let succeeds := group_succeeds st username secret kwargs dry_run contact_server.

(** What one [with] statement does, by the store's answers. *)
Lemma with_transaction_cases (e : Edit) (xs : list ExtractedAab) :
  with_transaction st e xs kwargs =
  match transaction st e with
  | Some x => ([EvEnter e (Some x)], Raised x)
  | None =>
      ([EvEnter e None; EvUpdateAab e xs kwargs;
        EvExit e (update_aab st e xs kwargs)],
       match transaction_exit st e (update_aab st e xs kwargs) with
       | Some x => Raised x
       | None => Returned tt
       end)
  end.
Proof.
  unfold with_transaction.
  destruct (transaction st e) as [x|]; [reflexivity|].
  destruct (transaction_exit st e (update_aab st e xs kwargs)); reflexivity.
Qed.

Lemma run_groups_cons (item : PyVal * list ExtractedAab)
    (rest : Dict.t (list ExtractedAab)) :
  run_groups (item :: rest) =
  (with_transaction st (edit_of (fst item)) (snd item) kwargs ;; run_groups rest).
Proof.
  destruct item as [p xs]. unfold run_groups, push_groups. simpl.
  destruct (with_transaction st _ xs kwargs) as [t [[]|e]]; reflexivity.
Qed.

Lemma run_groups_app (g1 g2 : Dict.t (list ExtractedAab)) :
  run_groups (g1 ++ g2) = (run_groups g1 ;; run_groups g2).
Proof. apply for_each_app. Qed.

Lemma run_groups_success (groups : Dict.t (list ExtractedAab)) :
  Forall succeeds groups ->
  run_groups groups = (flat_map events_of groups, Returned tt).
Proof.
  induction groups as [|item groups IH]; intros H; [reflexivity|].
  inversion H as [|? ? [Hopen [Hupd Hexit]] Hrest]; subst.
  cbv zeta in Hopen, Hupd, Hexit.
  rewrite run_groups_cons, with_transaction_cases. unfold edit_of.
  rewrite Hopen, Hupd, Hexit.
  rewrite (IH Hrest). unfold bind, events_of, group_events. simpl.
  now rewrite Hupd.
Qed.

(** A [with] statement that raises stops the loop: the groups after it are
    not processed. *)
Lemma run_groups_stops (g1 g2 : Dict.t (list ExtractedAab))
    (item : PyVal * list ExtractedAab) (x' : Exn) :
  Forall succeeds g1 ->
  snd (with_transaction st (edit_of (fst item)) (snd item) kwargs) = Raised x' ->
  run_groups (g1 ++ item :: g2) =
  (flat_map events_of g1
     ++ fst (with_transaction st (edit_of (fst item)) (snd item) kwargs),
   Raised x').
Proof.
  intros Hg1 Hraise.
  rewrite run_groups_app, (run_groups_success g1 Hg1), run_groups_cons.
  destruct (with_transaction st _ (snd item) kwargs) as [t o].
  simpl in Hraise. subst o. reflexivity.
Qed.

(** A failing update whose failure leaves the [with] statement stops the
    loop right after the exit of that transaction. *)
Lemma run_groups_failure (g1 g2 : Dict.t (list ExtractedAab))
    (item : PyVal * list ExtractedAab) (x x' : Exn) :
  Forall succeeds g1 ->
  transaction st (edit_of (fst item)) = None ->
  update_aab st (edit_of (fst item)) (snd item) kwargs = Some x ->
  transaction_exit st (edit_of (fst item)) (Some x) = Some x' ->
  run_groups (g1 ++ item :: g2) =
  (flat_map events_of g1 ++
     [EvEnter (edit_of (fst item)) None;
      EvUpdateAab (edit_of (fst item)) (snd item) kwargs;
      EvExit (edit_of (fst item)) (Some x)],
   Raised x').
Proof.
  intros Hg1 Hopen Hupd Hexit.
  rewrite (run_groups_stops g1 g2 item x' Hg1);
    rewrite with_transaction_cases, Hopen, Hupd, Hexit; reflexivity.
Qed.
End OrchestratorFacts.

Section TraceFacts.
Variable extract : list Aab -> Outcome (list ExtractedAab).
Variable st : Store.

(** The run of [push_aab] once both guards have been passed. *)
Lemma push_aab_validated (aabs : list Aab) (username secret : string)
    (track rollout_percentage : PyVal) (dry_run contact_server : bool) :
  is_None track = false ->
  push_aab extract st aabs (PyStr "google") username secret track
           rollout_percentage dry_run contact_server =
  match extract aabs with
  | Raised e => ([EvLoggingInit; EvExtract aabs], Raised e)
  | Returned items =>
      match _aabs_by_package_name items with
      | Raised e => ([EvLoggingInit; EvExtract aabs], Raised e)
      | Returned groups =>
          let (t, o) := push_groups st (PyStr "google") username secret
                          (update_aab_kwargs track rollout_percentage)
                          dry_run contact_server groups in
          ([EvLoggingInit; EvExtract aabs] ++ t, o)
      end
  end.
Proof.
  intros Htrack. unfold push_aab. rewrite Htrack. simpl.
  destruct (extract aabs) as [items|e]; simpl; [|reflexivity].
  destruct (_aabs_by_package_name items) as [groups|e]; simpl; [|reflexivity].
  now destruct (push_groups _ _ _ _ _ _ _ groups).
Qed.

(** The two guards. *)
Lemma push_aab_guards (aabs : list Aab) (target_store : PyVal)
    (username secret : string) (track rollout_percentage : PyVal)
    (dry_run contact_server : bool) :
  (target_store <> PyStr "google" /\
   push_aab extract st aabs target_store username secret track
            rollout_percentage dry_run contact_server =
   ([], Raised (WrongArgumentGiven msg_unsupported_store))) \/
  (target_store = PyStr "google" /\ track = PyNone /\
   push_aab extract st aabs target_store username secret track
            rollout_percentage dry_run contact_server =
   ([], Raised (WrongArgumentGiven msg_track_required))) \/
  (target_store = PyStr "google" /\ is_None track = false).
Proof.
  unfold push_aab.
  destruct (PyVal_eqb target_store (PyStr "google")) eqn:E; simpl.
  - apply PyVal_eqb_eq in E. right.
    destruct track; simpl; auto.
  - apply PyVal_eqb_neq in E. left. auto.
Qed.

Section Groups.
Variables (username secret : string) (kwargs : Kwargs)
          (dry_run contact_server : bool).

Let run_groups := push_groups st (PyStr "google") username secret kwargs
                              dry_run contact_server.

(** Transactions are entered and left one after the other. *)
Lemma groups_sequential (groups : Dict.t (list ExtractedAab)) :
  (forall n, length (fold_left step_open (firstn n (fst (run_groups groups))) [])
             <= 1)%nat /\
  fold_left step_open (fst (run_groups groups)) [] = [].
Proof.
  induction groups as [|item groups [IHn IHend]]; simpl.
  - split; [intros n; rewrite firstn_nil; simpl; lia | reflexivity].
  - unfold run_groups. rewrite run_groups_cons, with_transaction_cases.
    fold run_groups.
    destruct (transaction st _) as [x|]; simpl.
    + split; [|reflexivity].
      intros [|n]; simpl; [lia|]. rewrite firstn_nil. simpl. lia.
    + destruct (transaction_exit st _ _) as [x|]; simpl.
      * split; [|now rewrite Edit_eqb_refl].
        intros [|[|[|n]]]; simpl; try lia.
        rewrite firstn_nil, Edit_eqb_refl. simpl. lia.
      * destruct (run_groups groups) as [t o] eqn:R. simpl in *.
        rewrite Edit_eqb_refl. simpl. split; [|exact IHend].
        intros [|[|[|n]]]; simpl; try lia.
        rewrite Edit_eqb_refl. simpl. apply IHn.
Qed.

(** Every call made in the loop belongs to one of the groups. *)
Lemma groups_events (groups : Dict.t (list ExtractedAab)) (ev : Event) :
  In ev (fst (run_groups groups)) ->
  exists item, In item groups /\
    let e := mkEdit username secret (fst item) contact_server dry_run in
    ((exists f, ev = EvEnter e f) \/
     ev = EvUpdateAab e (snd item) kwargs \/
     (exists f, ev = EvExit e f)).
Proof.
  induction groups as [|item groups IH]; simpl; [contradiction|].
  unfold run_groups. rewrite run_groups_cons, with_transaction_cases.
  fold run_groups.
  assert (Hhere : forall f g,
             In ev [EvEnter (mkEdit username secret (fst item) contact_server dry_run) f;
                    EvUpdateAab (mkEdit username secret (fst item) contact_server dry_run)
                                (snd item) kwargs;
                    EvExit (mkEdit username secret (fst item) contact_server dry_run) g] ->
             exists item0, (item = item0 \/ In item0 groups) /\
               let e := mkEdit username secret (fst item0) contact_server dry_run in
               ((exists f, ev = EvEnter e f) \/
                ev = EvUpdateAab e (snd item0) kwargs \/
                (exists f, ev = EvExit e f))).
  { intros f g [H|[H|[H|[]]]]; exists item; (split; [now left|]); subst ev; eauto. }
  destruct (transaction st _) as [x|]; simpl.
  - intros [H|[]]. apply (Hhere (Some x) None). now left.
  - destruct (transaction_exit st _ _) as [x|]; simpl.
    + intros H. eapply Hhere. exact H.
    + destruct (run_groups groups) as [t o] eqn:R. simpl in *.
      intros [H|[H|[H|H]]].
      * apply (Hhere None None). now left.
      * apply (Hhere None None). right. now left.
      * eapply (Hhere None). right. right. left. exact H.
      * destruct (IH H) as [item0 [Hin Hev]]. exists item0. split; [now right|exact Hev].
Qed.
End Groups.
End TraceFacts.

(** *** Whole runs *)

Section RunFacts.
Variable extract : list Aab -> Outcome (list ExtractedAab).
Variable st : Store.
Variables (aabs : list Aab) (target_store : PyVal) (username secret : string)
          (track rollout_percentage : PyVal) (dry_run contact_server : bool).

Let run := push_aab extract st aabs target_store username secret track
                    rollout_percentage dry_run contact_server.

(** The three shapes of a run: stopped by a guard, stopped before the
    loop, or the loop over the groups. *)
Lemma run_shapes :
  run = ([], Raised (WrongArgumentGiven msg_unsupported_store)) \/
  run = ([], Raised (WrongArgumentGiven msg_track_required)) \/
  (exists e, run = ([EvLoggingInit; EvExtract aabs], Raised e) /\
             (extract aabs = Raised e \/
              exists items, extract aabs = Returned items /\
                            _aabs_by_package_name items = Raised e)) \/
  (exists items groups,
      target_store = PyStr "google" /\ is_None track = false /\
      extract aabs = Returned items /\
      _aabs_by_package_name items = Returned groups /\
      run = ([EvLoggingInit; EvExtract aabs]
               ++ fst (push_groups st (PyStr "google") username secret
                         (update_aab_kwargs track rollout_percentage)
                         dry_run contact_server groups),
             snd (push_groups st (PyStr "google") username secret
                         (update_aab_kwargs track rollout_percentage)
                         dry_run contact_server groups))).
Proof.
  unfold run.
  destruct (push_aab_guards extract st aabs target_store username secret track
              rollout_percentage dry_run contact_server)
    as [[_ H]|[[_ [_ H]]|[-> Htrack]]]; [auto | auto |].
  right. right. rewrite push_aab_validated by assumption.
  destruct (extract aabs) as [items|e] eqn:Hex; [|left; eauto].
  destruct (_aabs_by_package_name items) as [groups|e] eqn:Hg; [|left; eauto 6].
  right. exists items, groups.
  destruct (push_groups _ _ _ _ _ _ _ groups) as [t o]. auto 6.
Qed.

(** Every [update_aab] call of a run carries the filtered keywords. *)
Lemma run_update_kwargs (e : Edit) (xs : list ExtractedAab) (kw : Kwargs) :
  In (EvUpdateAab e xs kw) (fst run) ->
  kw = update_aab_kwargs track rollout_percentage.
Proof.
  destruct run_shapes as [H|[H|[[x [H _]]|[items [groups [_ [_ [_ [_ H]]]]]]]]];
    rewrite H; simpl.
  - contradiction.
  - contradiction.
  - intros [Hev|[Hev|[]]]; discriminate.
  - intros [Hev|[Hev|Hev]]; try discriminate.
    apply groups_events in Hev as [item [_ Hev]]. simpl in Hev.
    destruct Hev as [[f Hev]|[Hev|[f Hev]]]; try discriminate.
    now injection Hev.
Qed.
End RunFacts.

(** A falsy value is [None], zero or the empty string. *)
Lemma truthy_false (v : PyVal) :
  truthy v = false <-> v = PyNone \/ v = PyInt 0 \/ v = PyStr "".
Proof.
  destruct v as [|z|s]; simpl.
  - tauto.
  - rewrite negb_false_iff, Z.eqb_eq.
    split; [intros ->; auto | intros [H|[H|H]]; congruence].
  - rewrite negb_false_iff, String.eqb_eq.
    split; [intros ->; auto | intros [H|[H|H]]; congruence].
Qed.

(** Falsy values are left out of the keywords. *)
Lemma update_aab_kwargs_falsy_rollout (track v : PyVal) :
  truthy v = false -> update_aab_kwargs track v = update_aab_kwargs track PyNone.
Proof.
  intros H. unfold update_aab_kwargs. simpl. rewrite H. reflexivity.
Qed.

Lemma update_aab_kwargs_falsy_track (v rollout_percentage : PyVal) :
  truthy v = false ->
  update_aab_kwargs v rollout_percentage = update_aab_kwargs PyNone rollout_percentage.
Proof.
  intros H. unfold update_aab_kwargs. simpl. rewrite H. reflexivity.
Qed.

Lemma kwarg_track (track rollout_percentage : PyVal) :
  kwarg "track" (update_aab_kwargs track rollout_percentage) =
  if truthy track then Some track else None.
Proof.
  unfold update_aab_kwargs. simpl.
  destruct (truthy track), (truthy rollout_percentage); reflexivity.
Qed.

Lemma kwarg_rollout_percentage (track rollout_percentage : PyVal) :
  kwarg "rollout_percentage" (update_aab_kwargs track rollout_percentage) =
  if truthy rollout_percentage then Some rollout_percentage else None.
Proof.
  unfold update_aab_kwargs. simpl.
  destruct (truthy track), (truthy rollout_percentage); reflexivity.
Qed.


(** What the grouper returns is the grouping in closed form. *)
Lemma group_returns_grouped (l : list ExtractedAab) (d : Dict.t (list ExtractedAab)) :
  _aabs_by_package_name l = Returned d -> d = grouped l.
Proof.
  intros H.
  assert (Hnamed : Forall (fun p => package_name_of p <> None) l).
  { eapply loop_returns_named. exact H. }
  rewrite (group_closed_form l Hnamed) in H. now injection H.
Qed.

Section GroupEvents.
Variables (st : Store) (username secret : string) (kwargs : Kwargs)
          (dry_run contact_server : bool).

Lemma entered_group_events (groups : Dict.t (list ExtractedAab)) :
  entered (flat_map (group_events st username secret kwargs dry_run contact_server)
                    groups) =
  map (fun item => mkEdit username secret (fst item) contact_server dry_run) groups.
Proof.
  induction groups as [|item groups IH]; simpl; [reflexivity|]. now rewrite IH.
Qed.

Lemma updates_group_events (groups : Dict.t (list ExtractedAab)) :
  updates (flat_map (group_events st username secret kwargs dry_run contact_server)
                    groups) =
  map (fun item => (mkEdit username secret (fst item) contact_server dry_run,
                    snd item, kwargs)) groups.
Proof.
  induction groups as [|item groups IH]; simpl; [reflexivity|]. now rewrite IH.
Qed.
End GroupEvents.

(** *** One transaction at a time *)

Section Sequencing.
Variables (st : Store) (username secret : string) (kwargs : Kwargs)
          (dry_run contact_server : bool).

Let run_groups := push_groups st (PyStr "google") username secret kwargs
                              dry_run contact_server.

(** Between a transaction that opened and any later attempt to open one
    lies the exit of the former. *)
Lemma groups_no_interleaving (groups : Dict.t (list ExtractedAab))
    (i j : nat) (e e' : Edit) (f : option Exn) :
  (i < j)%nat ->
  nth_error (fst (run_groups groups)) i = Some (EvEnter e None) ->
  nth_error (fst (run_groups groups)) j = Some (EvEnter e' f) ->
  exists k o, (i < k < j)%nat /\
              nth_error (fst (run_groups groups)) k = Some (EvExit e o).
Proof.
  revert i j. induction groups as [|item groups IH]; intros i j Hij Hi Hj.
  - destruct i; discriminate.
  - unfold run_groups in *. rewrite run_groups_cons, with_transaction_cases in *.
    destruct (transaction st _) as [x|]; simpl in *.
    + destruct i as [|[|i]]; discriminate.
    + destruct (transaction_exit st _ _) as [x|]; simpl in *.
      * destruct i as [|[|[|[|i]]]]; try discriminate.
        destruct j as [|[|[|[|j]]]]; try discriminate; lia.
      * destruct (push_groups _ _ _ _ _ _ _ groups) as [t o] eqn:R. simpl in *.
        destruct i as [|[|[|i]]]; try discriminate.
        -- injection Hi as <-.
           destruct j as [|[|[|j]]]; try discriminate; try lia.
           exists 2%nat. eexists. split; [lia | reflexivity].
        -- destruct j as [|[|[|j]]]; try lia.
           destruct (IH i j ltac:(lia) Hi Hj) as [k [o' [Hk Hev]]].
           exists (S (S (S k))), o'. split; [lia | exact Hev].
Qed.
End Sequencing.

(** * The claims *)

(** C1. On every finite collection of (binary, metadata) pairs whose
    metadata all carry a [package_name], [_aabs_by_package_name] returns a
    mapping whose keys are exactly the distinct package names observed, in
    first-seen order; the value of each key is the sub-sequence of the input
    pairs carrying that name, in their original relative order; the groups
    together are a permutation of the input, so that no pair is dropped or
    duplicated; and the empty input yields the empty mapping. *)
Theorem aabs_by_package_name_groups (l : list ExtractedAab) :
  Forall (fun p => package_name_of p <> None) l ->
  exists d,
    _aabs_by_package_name l = Returned d /\
    NoDup (Dict.keys d) /\
    (forall k, In k (Dict.keys d) <->
               exists p, In p l /\ package_name_of p = Some k) /\
    Dict.keys d = first_seen (package_names l) /\
    (forall i j ki kj, (i < j)%nat ->
       nth_error (Dict.keys d) i = Some ki ->
       nth_error (Dict.keys d) j = Some kj ->
       exists a b, first_index ki l = Some a /\ first_index kj l = Some b /\
                   (a < b)%nat) /\
    (forall k v, In (k, v) d -> v = filter (has_package_name k) l) /\
    Permutation (flatten d) l /\
    (l = [] -> d = []).
Proof.
  intros Hnamed. exists (grouped l).
  split; [now apply group_closed_form|].
  unfold grouped at 1 2 3 4 5. rewrite keys_tabulate.
  split; [apply first_seen_NoDup|].
  split; [intros k; rewrite first_seen_In; apply package_names_In|].
  split; [reflexivity|].
  split; [apply first_seen_order|].
  split.
  { intros k v Hin. unfold grouped, tabulate in Hin.
    apply in_map_iff in Hin as [k' [Heq _]]. now injection Heq as <- <-. }
  split.
  { rewrite flatten_grouped. apply groups_partition; [apply first_seen_NoDup|].
    intros p Hp. rewrite Forall_forall in Hnamed. specialize (Hnamed p Hp).
    destruct (package_name_of p) as [k|] eqn:Hk; [|congruence].
    exists k. split; [reflexivity|].
    apply first_seen_In, package_names_In. eauto. }
  intros ->. reflexivity.
Qed.

Lemma aabs_by_package_name_groups_witness :
  Forall (fun p => package_name_of p <> None) sample_items /\
  exists d,
    _aabs_by_package_name sample_items = Returned d /\
    Dict.keys d = [PyStr "com.app.a"; PyStr "com.app.b"] /\
    Permutation (flatten d) sample_items.
Proof.
  assert (H : Forall (fun p => package_name_of p <> None) sample_items).
  { repeat constructor; discriminate. }
  split; [exact H|].
  destruct (aabs_by_package_name_groups sample_items H)
    as [d [Hd [_ [_ [Hkeys [_ [_ [Hperm _]]]]]]]].
  exists d. split; [exact Hd|]. split; [exact Hkeys | exact Hperm].
Defined.

(** C8. Grouping is idempotent: whenever [_aabs_by_package_name] returns a
    mapping, concatenating its groups in key order and grouping the result
    again returns the same mapping, with the same keys in the same order and
    the same sequences. *)
Theorem regrouping_is_idempotent (l : list ExtractedAab)
    (d : Dict.t (list ExtractedAab)) :
  _aabs_by_package_name l = Returned d ->
  _aabs_by_package_name (flatten d) = Returned d.
Proof.
  intros H.
  assert (Hnamed : Forall (fun p => package_name_of p <> None) l).
  { eapply loop_returns_named. exact H. }
  rewrite (group_closed_form l Hnamed) in H. injection H as <-.
  rewrite (group_closed_form _ (flatten_named l)).
  now rewrite grouped_flatten.
Qed.

Lemma regrouping_is_idempotent_witness :
  _aabs_by_package_name
    [("a1.aab", md "com.app.a" 1); ("b1.aab", md "com.app.b" 1);
     ("a2.aab", md "com.app.a" 2)] =
  Returned [(PyStr "com.app.a", [("a1.aab", md "com.app.a" 1); ("a2.aab", md "com.app.a" 2)]);
            (PyStr "com.app.b", [("b1.aab", md "com.app.b" 1)])] /\
  _aabs_by_package_name
    (flatten [(PyStr "com.app.a", [("a1.aab", md "com.app.a" 1); ("a2.aab", md "com.app.a" 2)]);
              (PyStr "com.app.b", [("b1.aab", md "com.app.b" 1)])]) =
  Returned [(PyStr "com.app.a", [("a1.aab", md "com.app.a" 1); ("a2.aab", md "com.app.a" 2)]);
            (PyStr "com.app.b", [("b1.aab", md "com.app.b" 1)])].
Proof.
  split; [reflexivity|].
  apply (regrouping_is_idempotent
           [("a1.aab", md "com.app.a" 1); ("b1.aab", md "com.app.b" 1);
            ("a2.aab", md "com.app.a" 2)]).
  reflexivity.
Defined.

(** C5. A call to [push_aab] whose [target_store] is not a supported store
    identifier raises [WrongArgumentGiven] at once: no collaborator has been
    called, so the metadata extractor has not run and no transaction has
    been opened. *)
Theorem push_aab_unsupported_store
    (extract : list Aab -> Outcome (list ExtractedAab)) (st : Store)
    (aabs : list Aab) (target_store : PyVal) (username secret : string)
    (track rollout_percentage : PyVal) (dry_run contact_server : bool) :
  Dict.contains target_store (_STORE_PER_TARGET_PLATFORM st) = false ->
  push_aab extract st aabs target_store username secret track rollout_percentage
           dry_run contact_server =
  ([], Raised (WrongArgumentGiven
                 "Only the Google store is currently supported for AAB")).
Proof.
  unfold Dict.contains, _STORE_PER_TARGET_PLATFORM. simpl. intros H.
  unfold push_aab.
  destruct (PyVal_eqb target_store (PyStr "google")); [discriminate | reflexivity].
Qed.

Lemma push_aab_unsupported_store_witness :
  Dict.contains (PyStr "amazon") (_STORE_PER_TARGET_PLATFORM ok_store) = false /\
  push_aab sample_extract ok_store sample_aabs (PyStr "amazon") "user" "secret.json"
           (PyStr "alpha") PyNone true false =
  ([], Raised (WrongArgumentGiven
                 "Only the Google store is currently supported for AAB")).
Proof.
  split; [reflexivity|].
  apply push_aab_unsupported_store. reflexivity.
Defined.

(** C6. A call to [push_aab] with the supported store and no track
    ([track] is [None]) raises a configuration error before the metadata
    extractor runs and before any transaction is opened: no collaborator
    has been called. *)
Theorem push_aab_track_required
    (extract : list Aab -> Outcome (list ExtractedAab)) (st : Store)
    (aabs : list Aab) (username secret : string)
    (rollout_percentage : PyVal) (dry_run contact_server : bool) :
  push_aab extract st aabs (PyStr "google") username secret PyNone
           rollout_percentage dry_run contact_server =
  ([], Raised (WrongArgumentGiven msg_track_required)) /\
  msg_track_required =
  String.concat dquote
    ["When "; "target_store"; " is "; "google"; ", the track must be provided"].
Proof. split; reflexivity. Qed.

(** C4. When metadata extraction fails the whole run aborts and no
    transaction is opened for any package; and in every run the call to the
    extractor has returned before the first transaction is entered. *)
Theorem extraction_precedes_transactions
    (extract : list Aab -> Outcome (list ExtractedAab)) (st : Store)
    (aabs : list Aab) (target_store : PyVal) (username secret : string)
    (track rollout_percentage : PyVal) (dry_run contact_server : bool) :
  let run := push_aab extract st aabs target_store username secret track
                      rollout_percentage dry_run contact_server in
  (forall e, extract aabs = Raised e ->
     entered (fst run) = [] /\ updates (fst run) = [] /\
     (exists e', snd run = Raised e') /\
     (target_store = PyStr "google" -> track <> PyNone ->
      run = ([EvLoggingInit; EvExtract aabs], Raised e))) /\
  (forall i edit failure,
     nth_error (fst run) i = Some (EvEnter edit failure) ->
     (exists items, extract aabs = Returned items) /\
     nth_error (fst run) 1 = Some (EvExtract aabs) /\ (1 < i)%nat).
Proof.
  intros run. subst run.
  assert (Hvalid : forall e, extract aabs = Raised e ->
            target_store = PyStr "google" -> track <> PyNone ->
            push_aab extract st aabs target_store username secret track
                     rollout_percentage dry_run contact_server =
            ([EvLoggingInit; EvExtract aabs], Raised e)).
  { intros e He -> Htrack.
    rewrite push_aab_validated by (destruct track; simpl; congruence).
    now rewrite He. }
  split.
  - intros e He. split; [|split; [|split]]; [| | |now apply Hvalid].
    all: destruct (run_shapes extract st aabs target_store username secret track
                     rollout_percentage dry_run contact_server)
        as [H|[H|[[x [H Hx]]|[items [groups [Hstore [Htrack [Hex [Hg H]]]]]]]]];
      try congruence; rewrite H; simpl; eauto.
  - destruct (run_shapes extract st aabs target_store username secret track
                rollout_percentage dry_run contact_server)
      as [H|[H|[[x [H Hx]]|[items [groups [Hstore [Htrack [Hex [Hg H]]]]]]]]];
      rewrite H; simpl.
    + intros [|i]; discriminate.
    + intros [|i]; discriminate.
    + intros [|[|[|i]]]; discriminate.
    + intros [|[|i]] edit failure Hev; try discriminate.
      split; [eauto|]. split; [reflexivity | lia].
Qed.

Lemma extraction_precedes_transactions_witness :
  failing_extract sample_aabs = Raised (OtherError "BadApk") /\
  entered (fst (push_aab failing_extract ok_store sample_aabs (PyStr "google")
                         "user" "secret.json" (PyStr "alpha") PyNone true false)) = [] /\
  push_aab failing_extract ok_store sample_aabs (PyStr "google")
           "user" "secret.json" (PyStr "alpha") PyNone true false =
  ([EvLoggingInit; EvExtract sample_aabs], Raised (OtherError "BadApk")).
Proof.
  split; [reflexivity|].
  destruct (extraction_precedes_transactions failing_extract ok_store sample_aabs
              (PyStr "google") "user" "secret.json" (PyStr "alpha") PyNone true false)
    as [Hfail _].
  destruct (Hfail (OtherError "BadApk") eq_refl) as [Hentered [_ [_ Hrun]]].
  split; [exact Hentered|].
  apply Hrun; [reflexivity | discriminate].
Defined.


(** With any store and any extractor, the rollout track without a
    percentage reaches the first group's transaction. *)
Lemma rollout_without_percentage_enters
    (extract : list Aab -> Outcome (list ExtractedAab)) (st : Store)
    (aabs : list Aab) (username secret : string) (dry_run contact_server : bool)
    (items : list ExtractedAab) (item : PyVal * list ExtractedAab)
    (rest : Dict.t (list ExtractedAab)) :
  extract aabs = Returned items ->
  _aabs_by_package_name items = Returned (item :: rest) ->
  exists edits,
    entered (fst (push_aab extract st aabs (PyStr "google") username secret
                           (PyStr "rollout") PyNone dry_run contact_server)) =
    mkEdit username secret (fst item) contact_server dry_run :: edits.
Proof.
  intros Hex Hg. rewrite push_aab_validated by reflexivity.
  rewrite Hex, Hg, run_groups_cons, with_transaction_cases.
  destruct (transaction st _) as [x|]; simpl; [eauto|].
  destruct (transaction_exit st _ _) as [x|]; simpl; [eauto|].
  destruct (push_groups _ _ _ _ _ _ _ rest) as [t o]. simpl. eauto.
Qed.




(** C7. In every run of [push_aab] at most one transaction is open at any
    time and none is left open at the end; the transaction of a group is
    exited before the next one is entered; when the update of a group fails
    and the store lets the failure leave the [with] statement, that
    transaction is still exited, the failure is raised by [push_aab], and
    no later group is processed; and whatever makes the [with] statement of
    a group raise, the run ends there. *)
Theorem push_aab_one_open_transaction
    (extract : list Aab -> Outcome (list ExtractedAab)) (st : Store)
    (aabs : list Aab) (target_store : PyVal) (username secret : string)
    (track rollout_percentage : PyVal) (dry_run contact_server : bool) :
  let run := push_aab extract st aabs target_store username secret track
                      rollout_percentage dry_run contact_server in
  let kwargs := update_aab_kwargs track rollout_percentage in
  (forall n, (length (open_after (firstn n (fst run))) <= 1)%nat) /\
  open_after (fst run) = [] /\
  (forall i j e e' f, (i < j)%nat ->
     nth_error (fst run) i = Some (EvEnter e None) ->
     nth_error (fst run) j = Some (EvEnter e' f) ->
     exists k o, (i < k < j)%nat /\ nth_error (fst run) k = Some (EvExit e o)) /\
  (forall items g1 item g2 x x',
     target_store = PyStr "google" -> track <> PyNone ->
     extract aabs = Returned items ->
     _aabs_by_package_name items = Returned (g1 ++ item :: g2) ->
     Forall (group_succeeds st username secret kwargs dry_run contact_server) g1 ->
     let e := mkEdit username secret (fst item) contact_server dry_run in
     transaction st e = None ->
     update_aab st e (snd item) kwargs = Some x ->
     transaction_exit st e (Some x) = Some x' ->
     run = ([EvLoggingInit; EvExtract aabs]
              ++ flat_map (group_events st username secret kwargs dry_run
                             contact_server) g1
              ++ [EvEnter e None; EvUpdateAab e (snd item) kwargs;
                  EvExit e (Some x)],
            Raised x')) /\
  (forall items g1 item g2 x',
     target_store = PyStr "google" -> track <> PyNone ->
     extract aabs = Returned items ->
     _aabs_by_package_name items = Returned (g1 ++ item :: g2) ->
     Forall (group_succeeds st username secret kwargs dry_run contact_server) g1 ->
     let e := mkEdit username secret (fst item) contact_server dry_run in
     snd (with_transaction st e (snd item) kwargs) = Raised x' ->
     run = ([EvLoggingInit; EvExtract aabs]
              ++ flat_map (group_events st username secret kwargs dry_run
                             contact_server) g1
              ++ fst (with_transaction st e (snd item) kwargs),
            Raised x')).
Proof.
  intros run kwargs. subst run kwargs.
  split; [|split; [|split; [|split]]].
  - intros n.
    destruct (run_shapes extract st aabs target_store username secret track
                rollout_percentage dry_run contact_server)
      as [H|[H|[[x [H _]]|[items [groups [_ [_ [_ [_ H]]]]]]]]]; rewrite H; simpl.
    + rewrite firstn_nil. simpl. lia.
    + rewrite firstn_nil. simpl. lia.
    + destruct n as [|[|n]]; simpl; try lia. rewrite firstn_nil. simpl. lia.
    + destruct n as [|[|n]]; simpl; try lia.
      apply (groups_sequential st username secret
               (update_aab_kwargs track rollout_percentage) dry_run contact_server groups).
  - destruct (run_shapes extract st aabs target_store username secret track
                rollout_percentage dry_run contact_server)
      as [H|[H|[[x [H _]]|[items [groups [_ [_ [_ [_ H]]]]]]]]]; rewrite H;
      try reflexivity.
    apply (groups_sequential st username secret
             (update_aab_kwargs track rollout_percentage) dry_run contact_server groups).
  - destruct (run_shapes extract st aabs target_store username secret track
                rollout_percentage dry_run contact_server)
      as [H|[H|[[x [H _]]|[items [groups [_ [_ [_ [_ H]]]]]]]]]; rewrite H; simpl;
      intros i j e e' f Hij Hi Hj.
    + destruct i; discriminate.
    + destruct i; discriminate.
    + destruct i as [|[|[|i]]]; discriminate.
    + destruct i as [|[|i]]; try discriminate.
      destruct j as [|[|j]]; try lia.
      destruct (groups_no_interleaving st username secret
                  (update_aab_kwargs track rollout_percentage) dry_run contact_server
                  groups i j e e' f ltac:(lia) Hi Hj) as [k [o [Hk Hev]]].
      exists (S (S k)), o. split; [lia | exact Hev].
  - intros items g1 item g2 x x' -> Htrack Hex Hg Hg1 e Hopen Hupd Hexit.
    rewrite push_aab_validated by (destruct track; simpl; congruence).
    rewrite Hex, Hg.
    rewrite (run_groups_failure st username secret _ dry_run contact_server
               g1 g2 item x x' Hg1 Hopen Hupd Hexit).
    reflexivity.
  - intros items g1 item g2 x' -> Htrack Hex Hg Hg1 e Hraise.
    rewrite push_aab_validated by (destruct track; simpl; congruence).
    rewrite Hex, Hg.
    rewrite (run_groups_stops st username secret _ dry_run contact_server
               g1 g2 item x' Hg1 Hraise).
    reflexivity.
Qed.

Lemma push_aab_one_open_transaction_witness :
  let e := mkEdit "user" "secret.json" (PyStr "com.app.a") false true in
  push_aab sample_extract (failing_store (PyStr "com.app.a")) sample_aabs
           (PyStr "google") "user" "secret.json" (PyStr "alpha") PyNone true false =
  ([EvLoggingInit; EvExtract sample_aabs;
    EvEnter e None;
    EvUpdateAab e [("a1.aab", md "com.app.a" 1); ("a2.aab", md "com.app.a" 2)]
                [("track", PyStr "alpha")];
    EvExit e (Some (OtherError "RemoteError"))],
   Raised (OtherError "RemoteError")).
Proof.
  intros e.
  destruct (push_aab_one_open_transaction sample_extract
              (failing_store (PyStr "com.app.a")) sample_aabs (PyStr "google")
              "user" "secret.json" (PyStr "alpha") PyNone true false)
    as [_ [_ [_ [Hfail _]]]].
  apply (Hfail sample_items []
           (PyStr "com.app.a", [("a1.aab", md "com.app.a" 1); ("a2.aab", md "com.app.a" 2)])
           [(PyStr "com.app.b", [("b1.aab", md "com.app.b" 1)])]
           (OtherError "RemoteError") (OtherError "RemoteError")).
  - reflexivity.
  - discriminate.
  - reflexivity.
  - reflexivity.
  - constructor.
  - reflexivity.
  - reflexivity.
  - reflexivity.
Defined.

(** C10. A supplied optional parameter that is falsy is left out of the
    [update_aab] call: with a rollout percentage of 0 the run is the run
    with no rollout percentage at all, and with the empty string as track,
    which passes the presence check, no update call receives a track. *)
Theorem falsy_parameters_are_omitted
    (extract : list Aab -> Outcome (list ExtractedAab)) (st : Store)
    (aabs : list Aab) (target_store : PyVal) (username secret : string)
    (track rollout_percentage : PyVal) (dry_run contact_server : bool) :
  push_aab extract st aabs target_store username secret track (PyInt 0)
           dry_run contact_server =
  push_aab extract st aabs target_store username secret track PyNone
           dry_run contact_server /\
  (forall e xs kw,
     In (EvUpdateAab e xs kw)
        (fst (push_aab extract st aabs target_store username secret track (PyInt 0)
                       dry_run contact_server)) ->
     kwarg "rollout_percentage" kw = None /\ kw = update_aab_kwargs track PyNone) /\
  (exists t o,
     push_aab extract st aabs (PyStr "google") username secret (PyStr "")
              rollout_percentage dry_run contact_server =
     (EvLoggingInit :: EvExtract aabs :: t, o)) /\
  (forall e xs kw,
     In (EvUpdateAab e xs kw)
        (fst (push_aab extract st aabs target_store username secret (PyStr "")
                       rollout_percentage dry_run contact_server)) ->
     kwarg "track" kw = None /\ kw = update_aab_kwargs PyNone rollout_percentage).
Proof.
  split; [reflexivity|]. split; [|split].
  - intros e xs kw Hin. apply run_update_kwargs in Hin. subst kw.
    split; [|reflexivity]. now rewrite kwarg_rollout_percentage.
  - rewrite push_aab_validated by reflexivity.
    destruct (extract aabs) as [items|x]; [|eauto].
    destruct (_aabs_by_package_name items) as [groups|x]; [|eauto].
    destruct (push_groups _ _ _ _ _ _ _ groups) as [t o]. simpl. eauto.
  - intros e xs kw Hin. apply run_update_kwargs in Hin. subst kw.
    split; [|reflexivity]. now rewrite kwarg_track.
Qed.

Lemma falsy_parameters_are_omitted_witness :
  let e := mkEdit "user" "secret.json" (PyStr "com.app.b") false true in
  In (EvUpdateAab e [("b1.aab", md "com.app.b" 1)] [("rollout_percentage", PyInt 50)])
     (fst (push_aab sample_extract ok_store sample_aabs (PyStr "google")
                    "user" "secret.json" (PyStr "") (PyInt 50) true false)) /\
  kwarg "track" [("rollout_percentage", PyInt 50)] = None.
Proof.
  intros e.
  assert (Hin : In (EvUpdateAab e [("b1.aab", md "com.app.b" 1)]
                                [("rollout_percentage", PyInt 50)])
                   (fst (push_aab sample_extract ok_store sample_aabs (PyStr "google")
                                  "user" "secret.json" (PyStr "") (PyInt 50) true false))).
  { simpl. do 6 right. left. reflexivity. }
  split; [exact Hin|].
  destruct (falsy_parameters_are_omitted sample_extract ok_store sample_aabs
              (PyStr "google") "user" "secret.json" (PyStr "") (PyInt 50)
              true false) as [_ [_ [_ Htrack]]].
  exact (proj1 (Htrack _ _ _ Hin)).
Defined.

(** C9. A command line that is a configuration error -- a usage error found
    by the parser, or a [WrongArgumentGiven] raised by [push_aab] -- ends the
    process with exit status 2 and the error's message; a run in which
    [push_aab] returns ends it with exit status 0; any other exception
    leaves [main] uncaught. *)
Theorem main_exit_status
    (extract : list Aab -> Outcome (list ExtractedAab)) (st : Store)
    (parse_args : list string -> ParseResult) (argv : list string) :
  let outcome := snd (main extract st parse_args argv) in
  (forall message, parse_args argv = UsageError message ->
     outcome = SystemExit 2 message /\ exit_status outcome = 2%Z) /\
  (forall config message, parse_args argv = Parsed config ->
     snd (main_push_aab extract st config) = Raised (WrongArgumentGiven message) ->
     outcome = SystemExit 2 message /\ exit_status outcome = 2%Z) /\
  (forall config, parse_args argv = Parsed config ->
     config_target_store config <> PyStr "google" ->
     main extract st parse_args argv =
     ([], SystemExit 2 "Only the Google store is currently supported for AAB")) /\
  (forall config, parse_args argv = Parsed config ->
     snd (main_push_aab extract st config) = Returned tt ->
     outcome = NormalReturn /\ exit_status outcome = 0%Z) /\
  (forall config e, parse_args argv = Parsed config ->
     snd (main_push_aab extract st config) = Raised e ->
     (forall message, e <> WrongArgumentGiven message) ->
     outcome = UncaughtException e /\ exit_status outcome = 1%Z).
Proof.
  intros outcome. subst outcome. unfold main.
  split; [|split; [|split; [|split]]].
  - intros message ->. split; reflexivity.
  - intros config message -> H.
    destruct (main_push_aab extract st config) as [t o]. simpl in H. subst o.
    split; reflexivity.
  - intros config -> Hstore. unfold main_push_aab.
    apply PyVal_eqb_neq in Hstore. rewrite Hstore.
    unfold push_aab. rewrite Hstore. reflexivity.
  - intros config -> H.
    destruct (main_push_aab extract st config) as [t o]. simpl in H. subst o.
    split; reflexivity.
  - intros config e -> H Hother.
    destruct (main_push_aab extract st config) as [t o]. simpl in H. subst o.
    destruct e as [message| |]; [now destruct (Hother message) | |]; split; reflexivity.
Qed.

Lemma main_exit_status_witness :
  sample_parse_args ["script"] =
    UsageError "the following arguments are required: --username, --secret" /\
  exit_status (snd (main sample_extract ok_store sample_parse_args ["script"])) = 2%Z.
Proof.
  split; [reflexivity|].
  destruct (main_exit_status sample_extract ok_store sample_parse_args ["script"])
    as [Husage _].
  exact (proj2 (Husage _ eq_refl)).
Defined.

(** * Further properties of the grouper *)

Lemma loop_unnamed (p : ExtractedAab) (rest : list ExtractedAab)
    (d : Dict.t (list ExtractedAab)) :
  package_name_of p = None ->
  _aabs_by_package_name_loop (p :: rest) d = Raised (KeyError (PyStr "package_name")).
Proof.
  destruct p as [aab metadata]. unfold package_name_of. simpl. intros H.
  unfold Dict.getitem. now rewrite H.
Qed.

(** A list either has names throughout or splits at its first unnamed pair. *)
Lemma first_unnamed (l : list ExtractedAab) :
  Forall (fun p => package_name_of p <> None) l \/
  exists l1 p l2, l = l1 ++ p :: l2 /\
                  Forall (fun p => package_name_of p <> None) l1 /\
                  package_name_of p = None.
Proof.
  induction l as [|q l IH]; [left; constructor|].
  destruct (package_name_of q) as [k|] eqn:Hq.
  - destruct IH as [IH|[l1 [p [l2 [-> [H1 Hp]]]]]].
    + left. constructor; [congruence | assumption].
    + right. exists (q :: l1), p, l2. split; [reflexivity|].
      split; [constructor; [congruence | assumption] | assumption].
  - right. exists [], q, l. split; [reflexivity|]. split; [constructor | assumption].
Qed.

(** A pair without a name makes the grouper raise. *)
Lemma unnamed_raises (l : list ExtractedAab) :
  Exists (fun p => package_name_of p = None) l ->
  _aabs_by_package_name l = Raised (KeyError (PyStr "package_name")).
Proof.
  intros Hex.
  destruct (first_unnamed l) as [Hnamed|[l1 [p [l2 [-> [H1 Hp]]]]]].
  - apply Exists_exists in Hex as [p [Hin Hp]].
    rewrite Forall_forall in Hnamed. now destruct (Hnamed p Hin).
  - unfold _aabs_by_package_name. rewrite loop_app.
    fold (_aabs_by_package_name l1). rewrite (group_closed_form l1 H1).
    now apply loop_unnamed.
Qed.

(** X1. The grouper raises exactly when some metadata has no
    [package_name], and what it raises is the [KeyError] of that key. *)
Theorem grouper_raises_iff_unnamed (l : list ExtractedAab) :
  (Exists (fun p => package_name_of p = None) l <->
   _aabs_by_package_name l = Raised (KeyError (PyStr "package_name"))) /\
  (forall e, _aabs_by_package_name l = Raised e -> e = KeyError (PyStr "package_name")).
Proof.
  destruct (first_unnamed l) as [Hnamed|[l1 [p [l2 [-> [H1 Hp]]]]]].
  - rewrite (group_closed_form l Hnamed).
    split; [split|]; try discriminate.
    intros Hex. apply Exists_exists in Hex as [p [Hin Hp]].
    rewrite Forall_forall in Hnamed. now destruct (Hnamed p Hin).
  - assert (Hex : Exists (fun p => package_name_of p = None) (l1 ++ p :: l2)).
    { apply Exists_app. right. now left. }
    rewrite (unnamed_raises _ Hex). split; [split|].
    + reflexivity.
    + intros _. exact Hex.
    + intros e He. now injection He.
Qed.

Lemma grouper_raises_iff_unnamed_witness :
  Exists (fun p => package_name_of p = None) unnamed_items /\
  _aabs_by_package_name unnamed_items = Raised (KeyError (PyStr "package_name")).
Proof.
  assert (H : Exists (fun p => package_name_of p = None) unnamed_items).
  { right. left. reflexivity. }
  split; [exact H|].
  exact (proj1 (proj1 (grouper_raises_iff_unnamed unnamed_items)) H).
Defined.

(** X2. No group is empty, and every pair of a group carries the package
    name the group is filed under. *)
Theorem groups_nonempty_and_homogeneous (l : list ExtractedAab)
    (d : Dict.t (list ExtractedAab)) (k : PyVal) (v : list ExtractedAab) :
  _aabs_by_package_name l = Returned d ->
  In (k, v) d ->
  v <> [] /\ Forall (fun p => package_name_of p = Some k) v.
Proof.
  intros Hd Hin. apply group_returns_grouped in Hd. subst d.
  unfold grouped, tabulate in Hin. apply in_map_iff in Hin as [k' [Heq Hk]].
  injection Heq as <- <-. split.
  - apply first_seen_In, group_nonempty in Hk.
    intros Hnil. rewrite Hnil in Hk. simpl in Hk. lia.
  - apply Forall_forall. intros p Hp. apply filter_In in Hp as [_ Hp].
    now apply has_package_name_iff.
Qed.

Lemma groups_nonempty_and_homogeneous_witness :
  [("b1.aab", md "com.app.b" 1)] <> [] /\
  Forall (fun p => package_name_of p = Some (PyStr "com.app.b"))
         [("b1.aab", md "com.app.b" 1)].
Proof.
  apply (groups_nonempty_and_homogeneous sample_items (grouped sample_items)).
  - reflexivity.
  - right. left. reflexivity.
Defined.

Lemma first_seen_length (ns : list PyVal) :
  (length (first_seen ns) <= length ns)%nat.
Proof.
  induction ns as [|n ns IH] using rev_ind; [simpl; lia|].
  rewrite first_seen_snoc, length_app. simpl.
  destruct (mem n (first_seen ns)); [lia|]. rewrite length_app. simpl. lia.
Qed.

Lemma package_names_length (l : list ExtractedAab) :
  (length (package_names l) <= length l)%nat.
Proof.
  induction l as [|p l IH]; simpl; [lia|].
  rewrite length_app. destruct (package_name_of p); simpl; lia.
Qed.

(** X3. There are at most as many groups as pairs, the groups hold as many
    pairs as the input, and the mapping is empty only for the empty input. *)
Theorem group_counts (l : list ExtractedAab) (d : Dict.t (list ExtractedAab)) :
  _aabs_by_package_name l = Returned d ->
  (length d <= length l)%nat /\
  length (flatten d) = length l /\
  (d = [] <-> l = []).
Proof.
  intros Hd.
  assert (Hnamed : Forall (fun p => package_name_of p <> None) l).
  { eapply loop_returns_named. exact Hd. }
  apply group_returns_grouped in Hd. subst d.
  assert (Hflat : length (flatten (grouped l)) = length l).
  { apply Permutation_length. rewrite flatten_grouped.
    apply groups_partition; [apply first_seen_NoDup|].
    intros p Hp. rewrite Forall_forall in Hnamed. specialize (Hnamed p Hp).
    destruct (package_name_of p) as [k|] eqn:Hk; [|congruence].
    exists k. split; [reflexivity|]. apply first_seen_In, package_names_In. eauto. }
  split; [|split; [exact Hflat|]].
  - unfold grouped, tabulate. rewrite length_map.
    pose proof (first_seen_length (package_names l)).
    pose proof (package_names_length l). lia.
  - split.
    + intros Hnil. rewrite Hnil in Hflat. simpl in Hflat.
      destruct l; [reflexivity | discriminate].
    + intros ->. reflexivity.
Qed.

Lemma group_counts_witness :
  (length (grouped sample_items) <= length sample_items)%nat /\
  length (flatten (grouped sample_items)) = length sample_items.
Proof.
  destruct (group_counts sample_items (grouped sample_items) eq_refl)
    as [Hle [Hlen _]].
  split; [exact Hle | exact Hlen].
Defined.

Lemma mem_first_seen (ns : list PyVal) (k : PyVal) :
  mem k (first_seen ns) = mem k ns.
Proof.
  destruct (mem k ns) eqn:E.
  - apply mem_In, first_seen_In. now apply mem_In.
  - apply mem_not_In. rewrite first_seen_In. now apply mem_not_In.
Qed.

(** X4. Looking a package name up in the mapping gives the pairs of that
    package in input order; a name no pair carries is not a key. *)
Theorem group_lookup (l : list ExtractedAab) (d : Dict.t (list ExtractedAab))
    (k : PyVal) :
  _aabs_by_package_name l = Returned d ->
  Dict.get k d =
  if existsb (has_package_name k) l
  then Some (filter (has_package_name k) l) else None.
Proof.
  intros Hd. apply group_returns_grouped in Hd. subst d.
  unfold grouped.
  rewrite (get_tabulate (fun k0 => filter (has_package_name k0) l)), mem_first_seen.
  assert (Hmem : mem k (package_names l) = existsb (has_package_name k) l).
  { destruct (existsb (has_package_name k) l) eqn:E.
    - apply existsb_exists in E as [p [Hin Hp]].
      apply mem_In, package_names_In. exists p. split; [assumption|].
      now apply has_package_name_iff.
    - apply mem_not_In. intros Hin. apply package_names_In in Hin as [p [Hin Hp]].
      apply has_package_name_iff in Hp.
      assert (existsb (has_package_name k) l = true)
        by (apply existsb_exists; eauto).
      congruence. }
  now rewrite Hmem.
Qed.

Lemma group_lookup_witness :
  Dict.get (PyStr "com.app.a") (grouped sample_items) =
    Some [("a1.aab", md "com.app.a" 1); ("a2.aab", md "com.app.a" 2)] /\
  Dict.get (PyStr "com.app.c") (grouped sample_items) = None.
Proof.
  split.
  - exact (group_lookup sample_items (grouped sample_items) (PyStr "com.app.a") eq_refl).
  - exact (group_lookup sample_items (grouped sample_items) (PyStr "com.app.c") eq_refl).
Defined.

Lemma first_seen_extends (a b : list PyVal) :
  exists extra, first_seen (a ++ b) = first_seen a ++ extra.
Proof.
  rewrite first_seen_app. generalize (first_seen a) as seen.
  induction b as [|n b IH]; intros seen; simpl.
  - exists []. now rewrite app_nil_r.
  - destruct (mem n seen); [apply IH|].
    destruct (IH (seen ++ [n])) as [extra Hextra].
    exists (n :: extra). rewrite Hextra, <- app_assoc. reflexivity.
Qed.

(** X5. Further pairs never reorder, drop or split the groups already
    formed: the keys of the grouping of a prefix open the keys of the
    grouping of the whole, and each group of the prefix is continued by the
    later pairs of its package. *)
Theorem grouping_extends_prefix (l1 l2 : list ExtractedAab)
    (d1 d12 : Dict.t (list ExtractedAab)) :
  _aabs_by_package_name l1 = Returned d1 ->
  _aabs_by_package_name (l1 ++ l2) = Returned d12 ->
  (exists extra, Dict.keys d12 = Dict.keys d1 ++ extra) /\
  (forall k v, In (k, v) d1 ->
               In (k, v ++ filter (has_package_name k) l2) d12).
Proof.
  intros H1 H12.
  apply group_returns_grouped in H1, H12. subst d1 d12.
  unfold grouped. rewrite !keys_tabulate, package_names_app. split.
  - apply first_seen_extends.
  - intros k v Hin. unfold tabulate in Hin.
    apply in_map_iff in Hin as [k' [Heq Hk]]. injection Heq as <- <-.
    rewrite <- filter_app. unfold tabulate.
    apply in_map_iff. exists k'. split; [reflexivity|].
    destruct (first_seen_extends (package_names l1) (package_names l2))
      as [extra ->].
    apply in_or_app. now left.
Qed.

Lemma grouping_extends_prefix_witness :
  In (PyStr "com.app.a",
      [("a1.aab", md "com.app.a" 1)]
        ++ filter (has_package_name (PyStr "com.app.a"))
                  [("a2.aab", md "com.app.a" 2); ("b1.aab", md "com.app.b" 1)])
     (grouped sample_items).
Proof.
  destruct (grouping_extends_prefix
              [("a1.aab", md "com.app.a" 1)]
              [("a2.aab", md "com.app.a" 2); ("b1.aab", md "com.app.b" 1)]
              (grouped [("a1.aab", md "com.app.a" 1)]) (grouped sample_items)
              eq_refl eq_refl) as [_ Hgroups].
  apply Hgroups. left. reflexivity.
Defined.

Lemma package_names_same (k : PyVal) (l : list ExtractedAab) :
  Forall (fun p => package_name_of p = Some k) l ->
  package_names l = repeat k (length l) /\ filter (has_package_name k) l = l.
Proof.
  induction 1 as [|p l Hp _ [IHn IHf]]; [split; reflexivity|].
  simpl. rewrite Hp. simpl. rewrite IHn.
  assert (has_package_name k p = true) as -> by now apply has_package_name_iff.
  now rewrite IHf.
Qed.

(** X6. When all the pairs belong to one package, the grouping is that one
    package bound to the whole input, in its order. *)
Theorem single_package_single_group (l : list ExtractedAab) (k : PyVal) :
  l <> [] ->
  Forall (fun p => package_name_of p = Some k) l ->
  _aabs_by_package_name l = Returned [(k, l)].
Proof.
  intros Hne Hall.
  rewrite group_closed_form.
  - destruct (package_names_same k l Hall) as [Hnames Hfilter].
    unfold grouped. rewrite Hnames.
    destruct l as [|p l]; [contradiction|].
    cbn [length repeat]. change (k :: repeat k (length l)) with ([k] ++ repeat k (length l)).
    rewrite first_seen_app.
    rewrite first_seen_repeat_seen by (cbn; now rewrite PyVal_eqb_refl).
    cbn [first_seen fold_left mem existsb app tabulate map].
    now rewrite Hfilter.
  - eapply Forall_impl; [|exact Hall]. intros p Hp. simpl in Hp. congruence.
Qed.

Lemma single_package_single_group_witness :
  _aabs_by_package_name [("a1.aab", md "com.app.a" 1); ("a2.aab", md "com.app.a" 2)] =
  Returned [(PyStr "com.app.a",
             [("a1.aab", md "com.app.a" 1); ("a2.aab", md "com.app.a" 2)])].
Proof.
  apply single_package_single_group.
  - discriminate.
  - repeat constructor.
Defined.

Lemma first_seen_NoDup_id (ns : list PyVal) : NoDup ns -> first_seen ns = ns.
Proof.
  induction ns as [|n ns IH] using rev_ind; intros Hnd; [reflexivity|].
  assert (Hparts : NoDup ns /\ ~ In n ns).
  { apply NoDup_rev in Hnd. rewrite rev_app_distr in Hnd. simpl in Hnd.
    inversion Hnd as [|? ? Hnotin Hnd']; subst. split.
    - rewrite <- (rev_involutive ns). now apply NoDup_rev.
    - now rewrite in_rev. }
  destruct Hparts as [Hnd' Hnotin].
  rewrite first_seen_snoc, (IH Hnd').
  apply mem_not_In in Hnotin. now rewrite Hnotin.
Qed.

Lemma filter_unique_name (l : list ExtractedAab) (p : ExtractedAab) (k : PyVal) :
  NoDup (package_names l) -> In p l -> package_name_of p = Some k ->
  filter (has_package_name k) l = [p].
Proof.
  induction l as [|q l IH]; intros Hnd Hin Hp; [contradiction|].
  change (q :: l) with ([q] ++ l) in Hnd. rewrite package_names_app in Hnd.
  simpl. destruct Hin as [->|Hin].
  - assert (has_package_name k p = true) as -> by now apply has_package_name_iff.
    f_equal. apply filter_absent_name.
    simpl in Hnd. rewrite Hp in Hnd. simpl in Hnd. now inversion Hnd.
  - assert (Hk : In k (package_names l)) by (apply package_names_In; eauto).
    destruct (has_package_name k q) eqn:E.
    + apply has_package_name_iff in E. simpl in Hnd. rewrite E in Hnd.
      simpl in Hnd. inversion Hnd. contradiction.
    + apply IH; auto. now apply NoDup_app_remove_l in Hnd.
Qed.

(** X7. When no two pairs share a package name, the keys are the package
    names in input order and every group holds exactly one pair. *)
Theorem distinct_packages_singleton_groups (l : list ExtractedAab)
    (d : Dict.t (list ExtractedAab)) :
  _aabs_by_package_name l = Returned d ->
  NoDup (package_names l) ->
  Dict.keys d = package_names l /\
  length d = length l /\
  (forall k v, In (k, v) d ->
     exists p, v = [p] /\ In p l /\ package_name_of p = Some k).
Proof.
  intros Hd Hnd.
  assert (Hnamed : Forall (fun p => package_name_of p <> None) l).
  { eapply loop_returns_named. exact Hd. }
  apply group_returns_grouped in Hd. subst d.
  unfold grouped. rewrite keys_tabulate, (first_seen_NoDup_id _ Hnd).
  split; [reflexivity|]. split.
  - unfold tabulate. rewrite length_map.
    clear Hnd. induction Hnamed as [|p l Hp _ IH]; [reflexivity|].
    simpl. destruct (package_name_of p); [|congruence]. simpl. now rewrite IH.
  - intros k v Hin. unfold tabulate in Hin.
    apply in_map_iff in Hin as [k' [Heq Hk]]. injection Heq as <- <-.
    apply package_names_In in Hk as [p [Hin Hp]].
    exists p. split; [|auto]. now apply filter_unique_name.
Qed.

Lemma distinct_packages_singleton_groups_witness :
  NoDup (package_names [("a1.aab", md "com.app.a" 1); ("b1.aab", md "com.app.b" 1)]) /\
  Dict.keys (grouped [("a1.aab", md "com.app.a" 1); ("b1.aab", md "com.app.b" 1)]) =
  [PyStr "com.app.a"; PyStr "com.app.b"].
Proof.
  assert (H : NoDup (package_names [("a1.aab", md "com.app.a" 1);
                                    ("b1.aab", md "com.app.b" 1)])).
  { simpl. constructor.
    - intros [H|[]]. discriminate.
    - constructor; [intros [] | constructor]. }
  split; [exact H|].
  exact (proj1 (distinct_packages_singleton_groups
                  [("a1.aab", md "com.app.a" 1); ("b1.aab", md "com.app.b" 1)]
                  (grouped [("a1.aab", md "com.app.a" 1); ("b1.aab", md "com.app.b" 1)])
                  eq_refl H)).
Defined.

(** * Further properties of the orchestrator *)

(** X8. The keywords built for [update_aab] never hold a falsy value; they
    hold nothing but the track under [track] and the rollout percentage
    under [rollout_percentage], each exactly when it is truthy, the track
    first. *)
Theorem update_aab_kwargs_only_truthy (track rollout_percentage : PyVal) :
  (forall name v, In (name, v) (update_aab_kwargs track rollout_percentage) ->
     truthy v = true /\
     ((name = "track" /\ v = track) \/
      (name = "rollout_percentage" /\ v = rollout_percentage))) /\
  (In ("track", track) (update_aab_kwargs track rollout_percentage) <->
   truthy track = true) /\
  (In ("rollout_percentage", rollout_percentage)
      (update_aab_kwargs track rollout_percentage) <->
   truthy rollout_percentage = true) /\
  map fst (update_aab_kwargs track rollout_percentage) =
    (if truthy track then ["track"] else [])
    ++ (if truthy rollout_percentage then ["rollout_percentage"] else []).
Proof.
  unfold update_aab_kwargs. split; [|split; [|split]].
  - intros name v Hin. apply filter_In in Hin as [Hin Hv]. simpl in Hv.
    split; [exact Hv|].
    destruct Hin as [H|[H|[]]]; injection H as <- <-; auto.
  - rewrite filter_In. simpl. split; [tauto|]. intros H. split; [now left | exact H].
  - rewrite filter_In. simpl. split; [tauto|].
    intros H. split; [right; now left | exact H].
  - simpl. destruct (truthy track), (truthy rollout_percentage); reflexivity.
Qed.

Lemma update_aab_kwargs_only_truthy_witness :
  In ("track", PyStr "beta") (update_aab_kwargs (PyStr "beta") (PyInt 0)) /\
  truthy (PyStr "beta") = true.
Proof.
  assert (H : In ("track", PyStr "beta") (update_aab_kwargs (PyStr "beta") (PyInt 0))).
  { left. reflexivity. }
  split; [exact H|].
  destruct (update_aab_kwargs_only_truthy (PyStr "beta") (PyInt 0)) as [Hall _].
  exact (proj1 (Hall "track" (PyStr "beta") H)).
Defined.

(** X9. When the extractor returns no metadata at all, a validated run
    returns normally after the extraction: no transaction is entered. *)
Theorem push_aab_nothing_to_upload
    (extract : list Aab -> Outcome (list ExtractedAab)) (st : Store)
    (aabs : list Aab) (username secret : string)
    (track rollout_percentage : PyVal) (dry_run contact_server : bool) :
  extract aabs = Returned [] ->
  track <> PyNone ->
  push_aab extract st aabs (PyStr "google") username secret track
           rollout_percentage dry_run contact_server =
  ([EvLoggingInit; EvExtract aabs], Returned tt).
Proof.
  intros Hex Htrack.
  rewrite push_aab_validated by (destruct track; simpl; congruence).
  now rewrite Hex.
Qed.

Lemma push_aab_nothing_to_upload_witness :
  empty_extract [] = Returned [] /\
  push_aab empty_extract ok_store [] (PyStr "google") "user" "secret.json"
           (PyStr "alpha") PyNone true false =
  ([EvLoggingInit; EvExtract []], Returned tt).
Proof.
  split; [reflexivity|].
  apply push_aab_nothing_to_upload; [reflexivity | discriminate].
Defined.

(** X10. When some extracted metadata has no [package_name], a validated
    run raises the [KeyError] of the grouper after the extraction and
    before any transaction is entered, whatever the store would do. *)
Theorem push_aab_unnamed_metadata
    (extract : list Aab -> Outcome (list ExtractedAab)) (st : Store)
    (aabs : list Aab) (username secret : string)
    (track rollout_percentage : PyVal) (dry_run contact_server : bool)
    (items : list ExtractedAab) :
  extract aabs = Returned items ->
  Exists (fun p => package_name_of p = None) items ->
  track <> PyNone ->
  push_aab extract st aabs (PyStr "google") username secret track
           rollout_percentage dry_run contact_server =
  ([EvLoggingInit; EvExtract aabs], Raised (KeyError (PyStr "package_name"))).
Proof.
  intros Hex Hunnamed Htrack.
  rewrite push_aab_validated by (destruct track; simpl; congruence).
  rewrite Hex.
  now rewrite (unnamed_raises items Hunnamed).
Qed.

Lemma push_aab_unnamed_metadata_witness :
  unnamed_extract sample_aabs = Returned unnamed_items /\
  Exists (fun p => package_name_of p = None) unnamed_items /\
  push_aab unnamed_extract ok_store sample_aabs (PyStr "google") "user" "secret.json"
           (PyStr "alpha") PyNone true false =
  ([EvLoggingInit; EvExtract sample_aabs], Raised (KeyError (PyStr "package_name"))).
Proof.
  assert (H : Exists (fun p => package_name_of p = None) unnamed_items).
  { right. left. reflexivity. }
  split; [reflexivity|]. split; [exact H|].
  apply (push_aab_unnamed_metadata unnamed_extract ok_store sample_aabs
           "user" "secret.json" (PyStr "alpha") PyNone true false unnamed_items);
    [reflexivity | exact H | discriminate].
Defined.

Section LoopFacts.
Variables (st : Store) (username secret : string) (kwargs : Kwargs)
          (dry_run contact_server : bool).

Let run_groups := push_groups st (PyStr "google") username secret kwargs
                              dry_run contact_server.
Let edit_of := fun item : PyVal * list ExtractedAab =>
                 mkEdit username secret (fst item) contact_server dry_run.

(** A loop that returns has run the three calls of every group. *)
Lemma groups_returned_trace (groups : Dict.t (list ExtractedAab)) :
  snd (run_groups groups) = Returned tt ->
  fst (run_groups groups) =
  flat_map (group_events st username secret kwargs dry_run contact_server) groups.
Proof.
  induction groups as [|item groups IH]; intros Hret; [reflexivity|].
  unfold run_groups in *. rewrite run_groups_cons, with_transaction_cases in *.
  destruct (transaction st _) as [x|]; [discriminate|].
  destruct (transaction_exit st _ _) as [x|]; [discriminate|].
  simpl in *. destruct (push_groups _ _ _ _ _ _ _ groups) as [t o]. simpl in *.
  now rewrite (IH Hret).
Qed.

(** The transactions entered follow the groups, in order, as far as the
    loop got. *)
Lemma entered_prefix (groups : Dict.t (list ExtractedAab)) :
  exists rest, map edit_of groups = entered (fst (run_groups groups)) ++ rest.
Proof.
  induction groups as [|item groups [rest IH]]; [exists []; reflexivity|].
  unfold run_groups in *. rewrite run_groups_cons, with_transaction_cases.
  destruct (transaction st _) as [x|]; simpl.
  - exists (map edit_of groups). reflexivity.
  - destruct (transaction_exit st _ _) as [x|]; simpl.
    + exists (map edit_of groups). reflexivity.
    + destruct (push_groups _ _ _ _ _ _ _ groups) as [t o]. simpl in *.
      exists rest. now rewrite IH.
Qed.

(** An update call sits between the successful enter and the exit of its
    own transaction. *)
Lemma groups_update_position (groups : Dict.t (list ExtractedAab))
    (i : nat) (e : Edit) (xs : list ExtractedAab) (kw : Kwargs) :
  nth_error (fst (run_groups groups)) i = Some (EvUpdateAab e xs kw) ->
  exists i', i = S i' /\
    nth_error (fst (run_groups groups)) i' = Some (EvEnter e None) /\
    nth_error (fst (run_groups groups)) (S i) =
      Some (EvExit e (update_aab st e xs kw)).
Proof.
  revert i. induction groups as [|item groups IH]; intros i Hi.
  - destruct i; discriminate.
  - unfold run_groups in *. rewrite run_groups_cons, with_transaction_cases in *.
    destruct (transaction st _) as [x|]; simpl in *.
    + destruct i as [|[|i]]; discriminate.
    + destruct (transaction_exit st _ _) as [x|]; simpl in *.
      * destruct i as [|[|[|[|i]]]]; try discriminate.
        injection Hi as <- <- <-. exists 0%nat. auto.
      * destruct (push_groups _ _ _ _ _ _ _ groups) as [t o]. simpl in *.
        destruct i as [|[|[|i]]]; try discriminate.
        -- injection Hi as <- <- <-. exists 0%nat. auto.
        -- destruct (IH i Hi) as [i' [-> [Henter Hexit]]].
           exists (S (S (S i'))). auto.
Qed.

(** The loop calls neither the logger nor the extractor. *)
Lemma groups_only_transactions (groups : Dict.t (list ExtractedAab)) :
  logging_inits (fst (run_groups groups)) = 0%nat /\
  extractions (fst (run_groups groups)) = [].
Proof.
  assert (H : forall t : Trace,
             (forall ev, In ev t -> ev <> EvLoggingInit /\
                                    forall aabs, ev <> EvExtract aabs) ->
             logging_inits t = 0%nat /\ extractions t = []).
  { unfold logging_inits, extractions.
    induction t as [|ev t IH]; intros Hall; [split; reflexivity|].
    destruct (IH (fun ev' Hin => Hall ev' (or_intror Hin))) as [IH1 IH2].
    destruct (Hall ev (or_introl eq_refl)) as [Hlog Hext].
    destruct ev; simpl; try (split; assumption).
    - congruence.
    - now destruct (Hext aabs). }
  apply H. intros ev Hin.
  apply groups_events in Hin as [item [_ Hev]]. simpl in Hev.
  destruct Hev as [[f ->]|[->|[f ->]]]; split; intros; discriminate.
Qed.
End LoopFacts.

Lemma entered_In (t : Trace) (edit : Edit) :
  In edit (entered t) <-> exists f, In (EvEnter edit f) t.
Proof.
  unfold entered. rewrite in_flat_map. split.
  - intros [ev [Hin Hev]]. destruct ev; simpl in Hev; try contradiction.
    destruct Hev as [->|[]]. eauto.
  - intros [f Hin]. exists (EvEnter edit f). split; [assumption | now left].
Qed.

(** X11. Every transaction a run enters is opened with the caller's
    username, secret, [contact_server] and [dry_run], for a package name
    that one of the extracted pairs carries. *)
Theorem transactions_carry_call_arguments
    (extract : list Aab -> Outcome (list ExtractedAab)) (st : Store)
    (aabs : list Aab) (target_store : PyVal) (username secret : string)
    (track rollout_percentage : PyVal) (dry_run contact_server : bool)
    (edit : Edit) :
  In edit (entered (fst (push_aab extract st aabs target_store username secret
                                  track rollout_percentage dry_run contact_server))) ->
  edit_username edit = username /\ edit_secret edit = secret /\
  edit_contact_server edit = contact_server /\ edit_dry_run edit = dry_run /\
  exists items p, extract aabs = Returned items /\ In p items /\
                  package_name_of p = Some (edit_package_name edit).
Proof.
  destruct (run_shapes extract st aabs target_store username secret track
              rollout_percentage dry_run contact_server)
    as [H|[H|[[x [H _]]|[items [groups [_ [_ [Hex [Hg H]]]]]]]]]; rewrite H; simpl;
    try contradiction.
  intros Hin. apply entered_In in Hin as [f Hin].
  apply groups_events in Hin as [item [Hitem Hev]]. simpl in Hev.
  destruct Hev as [[f' Hev]|[Hev|[f' Hev]]]; try discriminate.
  injection Hev as -> _. simpl. repeat (split; [reflexivity|]).
  apply group_returns_grouped in Hg. subst groups.
  unfold grouped, tabulate in Hitem. apply in_map_iff in Hitem as [k [<- Hk]].
  apply first_seen_In, package_names_In in Hk as [p [Hp Hk]].
  exists items, p. auto.
Qed.

Lemma transactions_carry_call_arguments_witness :
  let e := mkEdit "user" "secret.json" (PyStr "com.app.b") false true in
  In e (entered (fst (push_aab sample_extract ok_store sample_aabs (PyStr "google")
                               "user" "secret.json" (PyStr "alpha") PyNone true false))) /\
  edit_dry_run e = true /\ edit_contact_server e = false.
Proof.
  intros e.
  assert (H : In e (entered (fst (push_aab sample_extract ok_store sample_aabs
                                           (PyStr "google") "user" "secret.json"
                                           (PyStr "alpha") PyNone true false)))).
  { right. left. reflexivity. }
  split; [exact H|].
  destruct (transactions_carry_call_arguments sample_extract ok_store sample_aabs
              (PyStr "google") "user" "secret.json" (PyStr "alpha") PyNone true false
              e H) as [_ [_ [Hcs [Hdr _]]]].
  split; [exact Hdr | exact Hcs].
Defined.

(** X12. If [push_aab] returns, the extraction and the grouping succeeded
    and every group had its transaction: the trace is the three calls of
    each group in key order, each transaction entered was left, and the
    update operation was called once per group. *)
Theorem push_aab_returns_after_all_groups
    (extract : list Aab -> Outcome (list ExtractedAab)) (st : Store)
    (aabs : list Aab) (target_store : PyVal) (username secret : string)
    (track rollout_percentage : PyVal) (dry_run contact_server : bool) :
  let run := push_aab extract st aabs target_store username secret track
                      rollout_percentage dry_run contact_server in
  snd run = Returned tt ->
  exists items groups,
    extract aabs = Returned items /\
    _aabs_by_package_name items = Returned groups /\
    fst run = [EvLoggingInit; EvExtract aabs]
                ++ flat_map (group_events st username secret
                               (update_aab_kwargs track rollout_percentage)
                               dry_run contact_server) groups /\
    map edit_package_name (entered (fst run)) = Dict.keys groups /\
    exited (fst run) = entered (fst run) /\
    length (updates (fst run)) = length groups.
Proof.
  intros run. subst run.
  destruct (run_shapes extract st aabs target_store username secret track
              rollout_percentage dry_run contact_server)
    as [H|[H|[[x [H _]]|[items [groups [_ [_ [Hex [Hg H]]]]]]]]]; rewrite H; simpl;
    try discriminate.
  intros Hret. exists items, groups.
  rewrite (groups_returned_trace _ _ _ _ _ _ _ Hret).
  split; [exact Hex|]. split; [exact Hg|]. split; [reflexivity|].
  rewrite entered_group_events, updates_group_events, !length_map, map_map.
  split; [reflexivity|]. split; [|reflexivity].
  clear. induction groups as [|item groups IH]; simpl; [reflexivity|]. now rewrite IH.
Qed.

Lemma push_aab_returns_after_all_groups_witness :
  let run := push_aab sample_extract ok_store sample_aabs (PyStr "google")
                      "user" "secret.json" (PyStr "alpha") PyNone true false in
  snd run = Returned tt /\
  exists items groups,
    sample_extract sample_aabs = Returned items /\
    _aabs_by_package_name items = Returned groups /\
    map edit_package_name (entered (fst run)) = Dict.keys groups.
Proof.
  intros run. split; [reflexivity|].
  destruct (push_aab_returns_after_all_groups sample_extract ok_store sample_aabs
              (PyStr "google") "user" "secret.json" (PyStr "alpha") PyNone true false
              eq_refl) as [items [groups [Hex [Hg [_ [Hkeys _]]]]]].
  exists items, groups. split; [exact Hex|]. split; [exact Hg | exact Hkeys].
Defined.

(** X13. No run enters two transactions for the same package name,
    whatever the store answers. *)
Theorem no_package_entered_twice
    (extract : list Aab -> Outcome (list ExtractedAab)) (st : Store)
    (aabs : list Aab) (target_store : PyVal) (username secret : string)
    (track rollout_percentage : PyVal) (dry_run contact_server : bool) :
  NoDup (map edit_package_name
           (entered (fst (push_aab extract st aabs target_store username secret
                                   track rollout_percentage dry_run contact_server)))).
Proof.
  destruct (run_shapes extract st aabs target_store username secret track
              rollout_percentage dry_run contact_server)
    as [H|[H|[[x [H _]]|[items [groups [_ [_ [Hex [Hg H]]]]]]]]]; rewrite H; simpl;
    try constructor.
  destruct (entered_prefix st username secret
              (update_aab_kwargs track rollout_percentage) dry_run contact_server
              groups) as [rest Hrest].
  cbv zeta in Hrest.
  apply group_returns_grouped in Hg.
  assert (Hkeys : NoDup (Dict.keys groups)).
  { subst groups. unfold grouped. rewrite keys_tabulate. apply first_seen_NoDup. }
  assert (Heq : Dict.keys groups =
                map edit_package_name
                    (entered (fst (push_groups st (PyStr "google") username secret
                                     (update_aab_kwargs track rollout_percentage)
                                     dry_run contact_server groups)))
                ++ map edit_package_name rest).
  { rewrite <- map_app, <- Hrest, map_map. reflexivity. }
  rewrite Heq in Hkeys. now apply NoDup_app_remove_r in Hkeys.
Qed.

(** X14. The update operation is only ever called on an edit whose
    transaction has just opened, and the next call is the exit of that
    very transaction, which is told what the update raised. *)
Theorem update_only_inside_its_transaction
    (extract : list Aab -> Outcome (list ExtractedAab)) (st : Store)
    (aabs : list Aab) (target_store : PyVal) (username secret : string)
    (track rollout_percentage : PyVal) (dry_run contact_server : bool)
    (i : nat) (e : Edit) (xs : list ExtractedAab) (kw : Kwargs) :
  let run := push_aab extract st aabs target_store username secret track
                      rollout_percentage dry_run contact_server in
  nth_error (fst run) i = Some (EvUpdateAab e xs kw) ->
  exists i', i = S i' /\
    nth_error (fst run) i' = Some (EvEnter e None) /\
    nth_error (fst run) (S i) = Some (EvExit e (update_aab st e xs kw)).
Proof.
  intros run. subst run.
  destruct (run_shapes extract st aabs target_store username secret track
              rollout_percentage dry_run contact_server)
    as [H|[H|[[x [H _]]|[items [groups [_ [_ [Hex [Hg H]]]]]]]]]; rewrite H; simpl;
    intros Hi.
  - destruct i; discriminate.
  - destruct i; discriminate.
  - destruct i as [|[|[|i]]]; discriminate.
  - destruct i as [|[|i]]; try discriminate.
    apply groups_update_position in Hi as [i' [-> [Henter Hexit]]].
    exists (S (S i')). split; [reflexivity|]. split; [exact Henter | exact Hexit].
Qed.

Lemma update_only_inside_its_transaction_witness :
  let run := push_aab sample_extract (failing_store (PyStr "com.app.a")) sample_aabs
                      (PyStr "google") "user" "secret.json" (PyStr "alpha") PyNone
                      true false in
  let e := mkEdit "user" "secret.json" (PyStr "com.app.a") false true in
  nth_error (fst run) 2 = Some (EvEnter e None) /\
  nth_error (fst run) 4 = Some (EvExit e (Some (OtherError "RemoteError"))).
Proof.
  intros run e.
  destruct (update_only_inside_its_transaction sample_extract
              (failing_store (PyStr "com.app.a")) sample_aabs (PyStr "google")
              "user" "secret.json" (PyStr "alpha") PyNone true false
              3 e [("a1.aab", md "com.app.a" 1); ("a2.aab", md "com.app.a" 2)]
              [("track", PyStr "alpha")] eq_refl)
    as [i' [Hi [Henter Hexit]]].
  injection Hi as <-. split; [exact Henter | exact Hexit].
Defined.

(** X15. Every call of the update operation receives a non-empty list: all
    the extracted pairs of the transaction's package, in extraction order,
    and no pair of another package. *)
Theorem update_receives_whole_group
    (extract : list Aab -> Outcome (list ExtractedAab)) (st : Store)
    (aabs : list Aab) (target_store : PyVal) (username secret : string)
    (track rollout_percentage : PyVal) (dry_run contact_server : bool)
    (e : Edit) (xs : list ExtractedAab) (kw : Kwargs) :
  In (EvUpdateAab e xs kw)
     (fst (push_aab extract st aabs target_store username secret
                    track rollout_percentage dry_run contact_server)) ->
  xs <> [] /\
  Forall (fun p => package_name_of p = Some (edit_package_name e)) xs /\
  exists items, extract aabs = Returned items /\
                xs = filter (has_package_name (edit_package_name e)) items.
Proof.
  destruct (run_shapes extract st aabs target_store username secret track
              rollout_percentage dry_run contact_server)
    as [H|[H|[[x [H _]]|[items [groups [_ [_ [Hex [Hg H]]]]]]]]]; rewrite H; simpl.
  - contradiction.
  - contradiction.
  - intros [Hev|[Hev|[]]]; discriminate.
  - intros [Hev|[Hev|Hin]]; try discriminate.
    apply groups_events in Hin as [item [Hitem Hev]]. simpl in Hev.
    destruct Hev as [[f Hev]|[Hev|[f Hev]]]; try discriminate.
    injection Hev as -> -> _. simpl.
    apply group_returns_grouped in Hg. subst groups.
    unfold grouped, tabulate in Hitem. apply in_map_iff in Hitem as [k [<- Hk]].
    simpl. split; [|split].
    + apply first_seen_In, group_nonempty in Hk.
      intros Hnil. rewrite Hnil in Hk. simpl in Hk. lia.
    + apply Forall_forall. intros p Hp. apply filter_In in Hp as [_ Hp].
      now apply has_package_name_iff.
    + exists items. auto.
Qed.

Lemma update_receives_whole_group_witness :
  let e := mkEdit "user" "secret.json" (PyStr "com.app.a") false true in
  [("a1.aab", md "com.app.a" 1); ("a2.aab", md "com.app.a" 2)] <> [] /\
  Forall (fun p => package_name_of p = Some (PyStr "com.app.a"))
         [("a1.aab", md "com.app.a" 1); ("a2.aab", md "com.app.a" 2)].
Proof.
  intros e.
  destruct (update_receives_whole_group sample_extract ok_store sample_aabs
              (PyStr "google") "user" "secret.json" (PyStr "alpha") PyNone true false
              e [("a1.aab", md "com.app.a" 1); ("a2.aab", md "com.app.a" 2)]
              [("track", PyStr "alpha")])
    as [Hne [Hall _]].
  - simpl. do 3 right. left. reflexivity.
  - split; [exact Hne | exact Hall].
Defined.

(** X16. A run that passes both guards calls [main_logging.init] once and
    the extractor once, with the files it was given; a run stopped by a
    guard calls neither. *)
Theorem logging_and_extraction_once
    (extract : list Aab -> Outcome (list ExtractedAab)) (st : Store)
    (aabs : list Aab) (target_store : PyVal) (username secret : string)
    (track rollout_percentage : PyVal) (dry_run contact_server : bool) :
  let run := push_aab extract st aabs target_store username secret track
                      rollout_percentage dry_run contact_server in
  logging_inits (fst run) = (if guards_passed target_store track then 1 else 0)%nat /\
  extractions (fst run) = (if guards_passed target_store track then [aabs] else []) /\
  (guards_passed target_store track = true ->
   exists t, fst run = EvLoggingInit :: EvExtract aabs :: t).
Proof.
  intros run. subst run. unfold guards_passed.
  destruct (push_aab_guards extract st aabs target_store username secret track
              rollout_percentage dry_run contact_server)
    as [[Hstore H]|[[-> [-> H]]|[-> Htrack]]].
  - apply PyVal_eqb_neq in Hstore. rewrite H, Hstore. simpl.
    split; [reflexivity|]. split; [reflexivity | discriminate].
  - rewrite H. simpl. split; [reflexivity|]. split; [reflexivity | discriminate].
  - rewrite push_aab_validated by assumption. rewrite Htrack. simpl.
    destruct (extract aabs) as [items|x]; simpl; [|eauto].
    destruct (_aabs_by_package_name items) as [groups|x]; simpl; [|eauto].
    destruct (groups_only_transactions st username secret
                (update_aab_kwargs track rollout_percentage) dry_run contact_server
                groups) as [Hlog Hext].
    destruct (push_groups _ _ _ _ _ _ _ groups) as [t o]. simpl in *.
    unfold logging_inits in *. simpl. rewrite Hlog, Hext. eauto.
Qed.

Lemma logging_and_extraction_once_witness :
  guards_passed (PyStr "google") (PyStr "alpha") = true /\
  exists t,
    fst (push_aab sample_extract ok_store sample_aabs (PyStr "google")
                  "user" "secret.json" (PyStr "alpha") PyNone true false) =
    EvLoggingInit :: EvExtract sample_aabs :: t.
Proof.
  split; [reflexivity|].
  destruct (logging_and_extraction_once sample_extract ok_store sample_aabs
              (PyStr "google") "user" "secret.json" (PyStr "alpha") PyNone true false)
    as [_ [_ Hshape]].
  exact (Hshape eq_refl).
Defined.



Lemma raises_unnamed (l : list ExtractedAab) (e : Exn) :
  _aabs_by_package_name l = Raised e ->
  e = KeyError (PyStr "package_name") /\
  Exists (fun p => package_name_of p = None) l.
Proof.
  intros He.
  destruct (first_unnamed l) as [Hnamed|[l1 [p [l2 [-> [H1 Hp]]]]]].
  - rewrite (group_closed_form l Hnamed) in He. discriminate.
  - assert (Hex : Exists (fun p => package_name_of p = None) (l1 ++ p :: l2)).
    { apply Exists_app. right. now left. }
    rewrite (unnamed_raises _ Hex) in He. injection He as <-. auto.
Qed.

(** What the loop raises was raised by the store, on entering or on
    leaving a transaction that the run did enter. *)
Lemma groups_raise_origin (st : Store) (username secret : string)
    (kwargs : Kwargs) (dry_run contact_server : bool)
    (groups : Dict.t (list ExtractedAab)) (e : Exn) :
  snd (push_groups st (PyStr "google") username secret kwargs dry_run
                   contact_server groups) = Raised e ->
  exists edit,
    In edit (entered (fst (push_groups st (PyStr "google") username secret kwargs
                                       dry_run contact_server groups))) /\
    (transaction st edit = Some e \/
     exists body_failure, transaction_exit st edit body_failure = Some e).
Proof.
  induction groups as [|item groups IH]; intros He; [discriminate|].
  rewrite run_groups_cons, with_transaction_cases in *.
  destruct (transaction st _) as [x|] eqn:Hopen; simpl in *.
  - injection He as <-. eexists. split; [now left | now left].
  - destruct (transaction_exit st _ _) as [x|] eqn:Hexit; simpl in *.
    + injection He as <-. eexists. split; [now left | right; eauto].
    + destruct (push_groups _ _ _ _ _ _ _ groups) as [t o]. simpl in *.
      destruct (IH He) as [edit [Hin Horigin]].
      exists edit. split; [now right | exact Horigin].
Qed.

(** X18. Whatever [push_aab] raises is one of its two configuration
    errors, the extractor's exception, the [KeyError] of a metadata without
    [package_name], or an exception the store raised on entering or leaving
    a transaction of this run; in particular the lookup of the store class
    never fails. *)
Theorem push_aab_raise_origin
    (extract : list Aab -> Outcome (list ExtractedAab)) (st : Store)
    (aabs : list Aab) (target_store : PyVal) (username secret : string)
    (track rollout_percentage : PyVal) (dry_run contact_server : bool)
    (e : Exn) :
  let run := push_aab extract st aabs target_store username secret track
                      rollout_percentage dry_run contact_server in
  snd run = Raised e ->
  (e = WrongArgumentGiven msg_unsupported_store /\ target_store <> PyStr "google") \/
  (e = WrongArgumentGiven msg_track_required /\ track = PyNone) \/
  extract aabs = Raised e \/
  (e = KeyError (PyStr "package_name") /\
   exists items, extract aabs = Returned items /\
                 Exists (fun p => package_name_of p = None) items) \/
  (exists edit, In edit (entered (fst run)) /\
     (transaction st edit = Some e \/
      exists body_failure, transaction_exit st edit body_failure = Some e)).
Proof.
  intros run. subst run.
  destruct (push_aab_guards extract st aabs target_store username secret track
              rollout_percentage dry_run contact_server)
    as [[Hstore H]|[[-> [-> H]]|[-> Htrack]]].
  - rewrite H. simpl. intros He. injection He as <-. auto.
  - rewrite H. simpl. intros He. injection He as <-. auto.
  - rewrite push_aab_validated by assumption.
    destruct (extract aabs) as [items|x] eqn:Hex; simpl.
    + destruct (_aabs_by_package_name items) as [groups|x] eqn:Hg; simpl.
      * pose proof (groups_raise_origin st username secret
                      (update_aab_kwargs track rollout_percentage)
                      dry_run contact_server groups e) as Horigin.
        destruct (push_groups _ _ _ _ _ _ _ groups) as [t o]. simpl in *.
        intros He. destruct (Horigin He) as [edit [Hin Hst]].
        do 4 right. exists edit. auto.
      * intros He. injection He as <-.
        destruct (raises_unnamed items x Hg) as [-> Hunnamed].
        do 3 right. left. eauto.
    + intros He. injection He as <-. auto.
Qed.

Lemma push_aab_raise_origin_witness :
  let run := push_aab sample_extract (failing_store (PyStr "com.app.a")) sample_aabs
                      (PyStr "google") "user" "secret.json" (PyStr "alpha") PyNone
                      true false in
  snd run = Raised (OtherError "RemoteError") /\
  exists edit, In edit (entered (fst run)) /\
    (transaction (failing_store (PyStr "com.app.a")) edit =
       Some (OtherError "RemoteError") \/
     exists body_failure,
       transaction_exit (failing_store (PyStr "com.app.a")) edit body_failure =
       Some (OtherError "RemoteError")).
Proof.
  intros run. split; [reflexivity|].
  destruct (push_aab_raise_origin sample_extract (failing_store (PyStr "com.app.a"))
              sample_aabs (PyStr "google") "user" "secret.json" (PyStr "alpha") PyNone
              true false (OtherError "RemoteError") eq_refl)
    as [[H _]|[[H _]|[H|[[H _]|H]]]]; try discriminate.
  exact H.
Defined.
